(** * Verification of the helper logic of the Funda end-to-end test suite

    Shallow embedding of the suite's own helper code:
    - [src/utils/helpers.js]       (loadTestData, isStateFileValid)
    - [src/utils/commands.js]      (getTestData, getCredentials, login)
    - [src/pages/BasePage.js]      (navigate, isLoggedIn, handlePossibleCaptcha, LoginPage)
    - [src/utils/ensureLoggedIn.js]
    - [src/pages/NetworkMockPage.js]

    The browser, the file system and [process.env] are outside the
    repository: they are an environment that answers every call, and the
    embedding is quantified over all such environments.  Console output
    does not influence control flow and is left out. *)

From Stdlib Require Import List String Ascii Bool ZArith Lia Arith Permutation.
Set Warnings "-register-all".
Import ListNotations.
Local Open Scope string_scope.
Local Open Scope list_scope.

(* ================================================================== *)
(** * Part I. Definitions                                              *)
(* ================================================================== *)

(** ** JavaScript strings

    A JavaScript string is a finite sequence of code units.
    [String.prototype.includes] and [startsWith] compare code units
    position by position, so they are defined once for sequences over any
    alphabet with decidable equality. *)

Section CodeUnits.
Variable char : Type.
Variable char_eq_dec : forall x y : char, {x = y} + {x <> y}.

(** [s.startsWith(p)] *)
Fixpoint startsWith (s p : list char) {struct p} : bool :=
  match p, s with
  | [], _ => true
  | _ :: _, [] => false
  | c :: p', d :: s' => if char_eq_dec c d then startsWith s' p' else false
  end.

(** [s.includes(p)]: [p] occurs in [s] at some position, scanned from 0. *)
Fixpoint includes (s p : list char) : bool :=
  startsWith s p ||
  match s with
  | [] => false
  | _ :: s' => includes s' p
  end.

(** What "contains as a literal substring" means. *)
Definition substring_of (p s : list char) : Prop :=
  exists pre post, s = pre ++ p ++ post.
End CodeUnits.

Arguments startsWith {char} char_eq_dec s p.
Arguments includes {char} char_eq_dec s p.
Arguments substring_of {char} p s.

(** The same operations on string literals of the source. *)
Definition str_startsWith (s p : string) : bool :=
  startsWith ascii_dec (list_ascii_of_string s) (list_ascii_of_string p).

Definition str_includes (s p : string) : bool :=
  includes ascii_dec (list_ascii_of_string s) (list_ascii_of_string p).

(* ------------------------------------------------------------------ *)
(** ** [src/pages/NetworkMockPage.js] *)

Module NetworkMockPage.
Section Harness.
Variable char : Type.
Variable char_eq_dec : forall x y : char, {x = y} + {x <> y}.

(** A request URL, as returned by [request.url()]. *)
Definition url := list char.

(** [route.request()] *)
Record request := { request_url : url }.

(** The two closures the harness hands to [page.route]. *)
Inductive handler :=
| Monitor                       (* the catch-all observer of startRequestMonitoring *)
| Mock (body : string).         (* the interceptor of setupMockResponse; body = JSON.stringify(mockData) *)

(** The fields of a [NetworkMockPage] instance, together with what the
    instance has registered on its [page]: the route table in
    registration order and the number of ['response'] listeners. *)
Record state := {
  interceptedRequests : list request;
  interceptedUrls : list url;
  isMonitoringRequests : bool;
  page_routes : list (string * handler);
  page_response_listeners : nat
}.

(** [constructor(page)] *)
Definition constructor : state :=
  {| interceptedRequests := [];
     interceptedUrls := [];
     isMonitoringRequests := false;
     page_routes := [];
     page_response_listeners := 0 |}.

(** Outcome of an awaited harness call. *)
Inductive completion := Fulfilled | Rejected.

(** [startRequestMonitoring()].  [route_ok] is whether [page.route]
    resolves; when it rejects, the method rejects before the listener is
    added and before the flag is set. *)
Definition startRequestMonitoring (route_ok : bool) (st : state) : completion * state :=
  if isMonitoringRequests st then (Fulfilled, st)
  else if route_ok then
    (Fulfilled,
     {| interceptedRequests := interceptedRequests st;
        interceptedUrls := interceptedUrls st;
        isMonitoringRequests := true;
        page_routes := page_routes st ++ [("**", Monitor)];
        page_response_listeners := S (page_response_listeners st) |})
  else (Rejected, st).

(** [setupMockResponse(urlPattern, mockData)] *)
Definition setupMockResponse (urlPattern body : string) (route_ok mock_ok : bool)
    (st : state) : completion * state :=
  match startRequestMonitoring route_ok st with
  | (Rejected, st1) => (Rejected, st1)
  | (Fulfilled, st1) =>
      if mock_ok then
        (Fulfilled,
         {| interceptedRequests := interceptedRequests st1;
            interceptedUrls := interceptedUrls st1;
            isMonitoringRequests := isMonitoringRequests st1;
            page_routes := page_routes st1 ++ [(urlPattern, Mock body)];
            page_response_listeners := page_response_listeners st1 |})
      else (Rejected, st1)
  end.

(** The body of a route handler, run by the browser layer on a request. *)
Definition run_handler (h : handler) (req : request) (st : state) : state :=
  match h with
  | Monitor =>
      (* this.interceptedUrls.push(url); await route.continue() *)
      {| interceptedRequests := interceptedRequests st;
         interceptedUrls := interceptedUrls st ++ [request_url req];
         isMonitoringRequests := isMonitoringRequests st;
         page_routes := page_routes st;
         page_response_listeners := page_response_listeners st |}
  | Mock _ =>
      (* this.interceptedRequests.push(route.request()); await route.fulfill(...) *)
      {| interceptedRequests := interceptedRequests st ++ [req];
         interceptedUrls := interceptedUrls st;
         isMonitoringRequests := isMonitoringRequests st;
         page_routes := page_routes st;
         page_response_listeners := page_response_listeners st |}
  end.

(** [getInterceptedUrls()] *)
Definition getInterceptedUrls (st : state) : list url := interceptedUrls st.

(** [wasUrlPatternIntercepted(pattern)]:
    [interceptedUrls.filter(url => url.includes(pattern)).length > 0] *)
Definition wasUrlPatternIntercepted (pattern : list char) (st : state) : bool :=
  let matchingUrls :=
    filter (fun u => includes char_eq_dec u pattern) (interceptedUrls st) in
  (0 <? List.length matchingUrls)%nat.

(** Everything that can happen to an instance during a test. *)
Inductive operation :=
| CallStartRequestMonitoring (route_ok : bool)
| CallSetupMockResponse (urlPattern body : string) (route_ok mock_ok : bool)
| CallGetInterceptedUrls
| CallWasUrlPatternIntercepted (pattern : list char)
| Deliver (h : handler) (req : request).   (* the browser runs a registered handler *)

Definition step (op : operation) (st : state) : state :=
  match op with
  | CallStartRequestMonitoring ok => snd (startRequestMonitoring ok st)
  | CallSetupMockResponse p b ok1 ok2 => snd (setupMockResponse p b ok1 ok2 st)
  | CallGetInterceptedUrls => st
  | CallWasUrlPatternIntercepted _ => st
  | Deliver h req => run_handler h req st
  end.

Definition run (ops : list operation) (st : state) : state :=
  fold_left (fun s op => step op s) ops st.

(** The URLs handed to the catch-all observer during [ops], in arrival
    order and with repetitions. *)
Definition observed (ops : list operation) : list url :=
  flat_map (fun op => match op with
                      | Deliver Monitor req => [request_url req]
                      | _ => []
                      end) ops.

Definition is_monitor (r : string * handler) : bool :=
  match snd r with Monitor => true | Mock _ => false end.

(** How many catch-all observers the instance has installed. *)
Definition monitors_installed (st : state) : nat :=
  List.length (filter is_monitor (page_routes st)).

(** The flag tells whether the observer is installed. *)
Definition flag_counts_monitors (st : state) : Prop :=
monitors_installed st = if isMonitoringRequests st then 1%nat else 0%nat.
End Harness.

Arguments interceptedRequests {char} s.
Arguments interceptedUrls {char} s.
Arguments isMonitoringRequests {char} s.
Arguments page_routes {char} s.
Arguments page_response_listeners {char} s.
Arguments request_url {char} r.
Arguments startRequestMonitoring {char} route_ok st.
Arguments setupMockResponse {char} urlPattern body route_ok mock_ok st.
Arguments run_handler {char} h req st.
Arguments getInterceptedUrls {char} st.
Arguments wasUrlPatternIntercepted {char} char_eq_dec pattern st.
Arguments step {char} op st.
Arguments run {char} ops st.
Arguments observed {char} ops.
Arguments monitors_installed {char} st.
Arguments flag_counts_monitors {char} st.
End NetworkMockPage.

(* ------------------------------------------------------------------ *)
(** ** JavaScript values

    What [JSON.parse] can return, plus [undefined] and the members every
    plain object inherits from [Object.prototype].  Numbers are IEEE
    doubles; the embedding never computes with them and keeps their type
    abstract. *)

Section Suite.
Context {number : Type}.

Inductive value : Type :=
| VUndefined
| VNull
| VBool (b : bool)
| VNum (n : number)
| VStr (s : string)
| VArr (items : list value)
| VObj (fields : list (string * value))     (* own properties, in insertion order *)
| VNative (name : string).                  (* a member inherited from Object.prototype *)

(** Own property names of [Object.prototype]. *)
Definition Object_prototype : list string :=
  [ "constructor"; "__defineGetter__"; "__defineSetter__"; "hasOwnProperty";
    "__lookupGetter__"; "__lookupSetter__"; "isPrototypeOf";
    "propertyIsEnumerable"; "toString"; "valueOf"; "__proto__";
    "toLocaleString" ].

Fixpoint own_property (key : string) (fields : list (string * value)) : option value :=
  match fields with
  | [] => None
  | (k, v) :: rest => if String.eqb k key then Some v else own_property key rest
  end.

(** ** The environment: browser, file system, process *)

(** Calls that leave the repository.  The index is the type of the value
    the returned promise resolves to. *)
Inductive action : Type -> Type :=
| PageUrl : action string                                   (* page.url() *)
| PageGoto (url : string) : action unit                     (* page.goto(url) *)
| PageReload : action unit                                  (* page.reload() *)
| WaitForTimeout (ms : Z) : action unit                     (* page.waitForTimeout(ms) *)
| IsVisible (selector : string) (timeout : option Z) : action bool
| LocatorWaitFor (selector : string) (timeout : Z) : action unit
| Click (selector : string) : action unit
| Fill (selector : string) (text : value) : action unit
| IsChecked (selector : string) : action bool
| Check (selector : string) : action unit
| WaitImageChallengeGone (timeout : Z) : action unit
    (* Promise.race([page.waitForFunction(no image challenge), page.waitForNavigation()]) *)
| WaitNavigationOrSelector (selector : string) (timeout : Z) : action unit
    (* Promise.race([page.waitForNavigation(), page.waitForSelector(selector)]) *)
| AddCookies (cookies : value) : action unit                (* page.context().addCookies(cookies) *)
| FsAccess (path : string) : action unit                    (* fs.access(path) *)
| FsReadFile (path : string) : action string.               (* fs.readFile(path, 'utf8') *)

(** How an awaited call settles. *)
Inductive outcome (T : Type) : Type :=
| Resolved (v : T)
| Rejected (message : string).
Arguments Resolved {T} v.
Arguments Rejected {T} message.

(** One call together with how it settled. *)
Inductive event : Type :=
| Ev {T : Type} (a : action T) (o : outcome T).

(** An environment answers each call as a function of everything that
    happened before it. *)
Record Env : Type := {
  respond : list event -> forall T : Type, action T -> outcome T;
  HEADLESS : option string;                        (* process.env.HEADLESS *)
  JSON_parse : string -> option value;             (* None: SyntaxError *)
  number_truthy : number -> bool;                  (* false for 0 and NaN *)
  foreign_get : value -> string -> value;
    (* property read on a receiver that is no plain object *)
  foreign_length_gt_zero : value -> option bool
    (* [c.length > 0] when [c] is an object or function; None: TypeError *)
}.

(** ** The monad of the asynchronous code

    A computation sees the history of events so far and returns how it
    completed together with the events it added. *)
Inductive result (A : Type) : Type :=
| Ok (a : A)                 (* completed normally *)
| Throw (message : string)   (* an Error with this message was thrown *)
| OutOfFuel.                 (* a loop of the model used up its fuel *)
Arguments Ok {A} a.
Arguments Throw {A} message.
Arguments OutOfFuel {A}.

Definition M (A : Type) : Type := list event -> result A * list event.

Definition ret {A} (a : A) : M A := fun _ => (Ok a, []).

Definition throw {A} (message : string) : M A := fun _ => (Throw message, []).

Definition out_of_fuel {A} : M A := fun _ => (OutOfFuel, []).

Definition bind {A B} (m : M A) (k : A -> M B) : M B :=
  fun h =>
    match m h with
    | (Ok a, n1) => let (r, n2) := k a (h ++ n1) in (r, n1 ++ n2)
    | (Throw e, n1) => (Throw e, n1)
    | (OutOfFuel, n1) => (OutOfFuel, n1)
    end.

(** [try { m } catch (error) { handler error }] *)
Definition try_catch {A} (m : M A) (handler : string -> M A) : M A :=
  fun h =>
    match m h with
    | (Ok a, n1) => (Ok a, n1)
    | (Throw e, n1) => let (r, n2) := handler e (h ++ n1) in (r, n1 ++ n2)
    | (OutOfFuel, n1) => (OutOfFuel, n1)
    end.
End Suite.

Arguments value : clear implicits.
Arguments action : clear implicits.
Arguments event : clear implicits.
Arguments Env : clear implicits.
Arguments M : clear implicits.
Arguments Resolved {T} v.
Arguments Rejected {T} message.
Arguments Ok {A} a.
Arguments Throw {A} message.
Arguments OutOfFuel {A}.

Declare Scope js_scope.
Delimit Scope js_scope with js.
Notation "x <- m ;; k" := (bind m (fun x => k))
  (at level 61, m at next level, right associativity) : js_scope.
Notation "m1 ;;; m2" := (bind m1 (fun _ => m2))
  (at level 61, right associativity) : js_scope.

Local Open Scope Z_scope.
Local Open Scope list_scope.
Local Open Scope js_scope.

(** The double-quote character of the error-message templates. *)
Definition dquote : string := String (ascii_of_nat 34) EmptyString.

(** [quoted s] is [s] between double quotes. *)
Definition quoted (s : string) : string := (dquote ++ s ++ dquote)%string.

Section Program.
Context {number : Type}.
Variable E : Env number.

Local Abbreviation value := (value number).
Local Abbreviation action := (action number).
Local Abbreviation M := (M number).

(** An awaited call to the environment. *)
Definition perform {T} (a : action T) : M T :=
  fun h =>
    let o := respond E h T a in
    (match o with
     | Resolved v => Ok v
     | Rejected message => Throw message
     end, [Ev a o]).

(** ** Expressions *)

(** ToBoolean *)
Definition truthy (v : value) : bool :=
  match v with
  | VUndefined | VNull => false
  | VBool b => b
  | VNum n => number_truthy E n
  | VStr s => negb (String.eqb s EmptyString)
  | VArr _ | VObj _ | VNative _ => true
  end.

(** [receiver[key]] and [receiver.key] *)
Definition get (receiver : value) (key : string) : M value :=
  match receiver with
  | VUndefined | VNull => throw "TypeError: cannot read properties of null or undefined"
  | VObj fields =>
      ret (match own_property key fields with
           | Some v => v
           | None => if existsb (String.eqb key) Object_prototype
                     then VNative key else VUndefined
           end)
  | _ => ret (foreign_get E receiver key)
  end.

(** [c.length > 0] *)
Definition length_gt_zero (c : value) : M value :=
  match c with
  | VUndefined | VNull => throw "TypeError: cannot read properties of null or undefined"
  | VArr items => ret (VBool (0 <? List.length items)%nat)
  | VStr s => ret (VBool (0 <? String.length s)%nat)
  | VBool _ | VNum _ => ret (VBool false)          (* undefined > 0 *)
  | VObj _ | VNative _ =>
      match foreign_length_gt_zero E c with
      | Some b => ret (VBool b)
      | None => throw "TypeError: cannot convert object to primitive value"
      end
  end.

(** [state && state.cookies && state.cookies.length > 0] *)
Definition has_cookies (state : value) : M value :=
  if truthy state then
    cookies <- get state "cookies" ;;
    if truthy cookies then length_gt_zero cookies else ret cookies
  else ret state.

(** [JSON.parse(text)] *)
Definition parse (text : string) : M value :=
  match JSON_parse E text with
  | Some v => ret v
  | None => throw "SyntaxError: unexpected token in JSON"
  end.

(** ** [src/utils/helpers.js] *)

Definition loadTestData (filePath : string) : M value :=
  try_catch
    (data <- perform (FsReadFile filePath) ;;
     parse data)
    (fun _ => ret (VObj [])).

Definition isStateFileValid (filePath : string) : M value :=
  try_catch
    (perform (FsAccess filePath) ;;;
     data <- perform (FsReadFile filePath) ;;
     state <- parse data ;;
     has_cookies state)
    (fun _ => ret (VBool false)).

(** ** [src/pages/BasePage.js] *)

Definition domains_auth : string := "https://login.funda.nl".
Definition domains_main : string := "https://www.funda.nl".

Definition cookieBanner_acceptButton : string :=
  ("[aria-label=" ++ quoted "Alles accepteren" ++ "]")%string.

(** A page object: the only field the modelled methods read is [baseUrl]. *)
Record BasePage := { baseUrl : string }.

(** [new BasePage(page, options)]: [options.domain || this.domains.auth] *)
Definition new_BasePage (domain : option string) : BasePage :=
  {| baseUrl := match domain with
                | Some d => if String.eqb d EmptyString then domains_auth else d
                | None => domains_auth
                end |}.

Definition alwaysUseMainSitePaths : list string := ["zoeken"; "koop"; "huur"; "mijn"].

Definition navigate (this : BasePage) (path : string) (useMainSite : bool) : M unit :=
  let domain := if useMainSite then domains_main else baseUrl this in
  let shouldUseMainSite :=
    existsb (fun prefix => str_startsWith path prefix) alwaysUseMainSitePaths in
  let targetDomain := if shouldUseMainSite then domains_main else domain in
  perform (PageGoto (targetDomain ++ "/" ++ path)%string).

Definition acceptCookiesIfVisible : M unit :=
  try_catch
    (perform (LocatorWaitFor cookieBanner_acceptButton 5000) ;;;
     visible <- perform (IsVisible cookieBanner_acceptButton None) ;;
     if visible then
       perform (Click cookieBanner_acceptButton) ;;;
       perform (WaitForTimeout 1000)
     else ret tt)
    (fun _ => ret tt).

(** [await locator.isVisible(options).catch(() => false)] *)
Definition isVisible_or_false (selector : string) (timeout : option Z) : M bool :=
  try_catch (perform (IsVisible selector timeout)) (fun _ => ret false).

(** The [for (const indicator of indicators)] loops of [isLoggedIn]: true
    as soon as one indicator is visible. *)
Fixpoint any_indicator_visible (indicators : list string) : M bool :=
  match indicators with
  | [] => ret false
  | indicator :: rest =>
      isVisible <- try_catch (isVisible_or_false indicator (Some 1000))
                             (fun _ => ret false) ;;
      if isVisible then ret true else any_indicator_visible rest
  end.

Definition loggedInIndicators : list string := ["text=Account"].

Definition notLoggedInIndicators : list string :=
  [ ("input[id=" ++ quoted "UserName" ++ "]")%string;
    ("input[id=" ++ quoted "Password" ++ "]")%string;
    ("button:has-text(" ++ quoted "Log in" ++ ")")%string ].

Definition accountMenu : string := ("button:has-text(" ++ quoted "Account" ++ ")")%string.

Definition logoutLink : string := ("a:has-text(" ++ quoted " Uitloggen" ++ ")")%string.

Definition isLoggedIn : M bool :=
  try_catch
    (perform PageUrl ;;;                             (* console.log('Current URL:', this.page.url()) *)
     perform (WaitForTimeout 1000) ;;;
     url <- perform PageUrl ;;
     if str_includes url "www.funda.nl"
        || (negb (str_includes url "login.funda.nl") && str_includes url "funda.nl")
     then ret true
     else
       indicatorFound <- any_indicator_visible loggedInIndicators ;;
       if indicatorFound then ret true
       else
         logoutFound <-
           try_catch
             (isMenuVisible <- isVisible_or_false accountMenu (Some 1000) ;;
              if isMenuVisible then
                perform (Click accountMenu) ;;;
                perform (WaitForTimeout 500) ;;;
                isVisible_or_false logoutLink (Some 1000)
              else ret false)
             (fun _ => ret false) ;;
         if logoutFound then ret true
         else
           loginFormFound <- any_indicator_visible notLoggedInIndicators ;;
           if loginFormFound then ret false else ret false)
    (fun _ => ret false).

(** *** [handlePossibleCaptcha] *)

(** [process.env.HEADLESS !== 'false' && process.env.HEADLESS !== '0'] *)
Definition headless : bool :=
  match HEADLESS E with
  | Some s => negb (String.eqb s "false") && negb (String.eqb s "0")
  | None => true
  end.

Definition accessDeniedText : string := "text=Access to login.funda.nl was denied".
Definition captchaPageTitle : string := "text=Je bent bijna op de pagina die je zoekt".
Definition loginFormLocator : string :=
  ("button:has-text(" ++ quoted "Log in" ++ "), input[placeholder="
     ++ quoted "E-mailadres" ++ "]")%string.
Definition imageSelectLocator : string :=
  (".rc-imageselect-challenge, [class*=" ++ quoted "imageselect" ++ "]")%string.

Definition timeout : Z := 120000.       (* 2 minutes *)
Definition checkInterval : Z := 3000.   (* 3 seconds *)

(** The [while (timeElapsed < timeout)] loop.  It returns the value of
    [timeElapsed] on exit.  The recursion is on [fuel]; running out of it
    is reported as [OutOfFuel], never as a result of the loop. *)
Fixpoint captcha_poll (fuel : nat) (timeElapsed : Z) : M Z :=
  match fuel with
  | O => out_of_fuel
  | S fuel' =>
      if timeElapsed <? timeout then
        stillOnCaptchaPage <- isVisible_or_false captchaPageTitle None ;;
        loginFormVisible <- isVisible_or_false loginFormLocator None ;;
        if negb stillOnCaptchaPage || loginFormVisible then ret timeElapsed   (* break *)
        else
          perform (WaitForTimeout checkInterval) ;;;
          captcha_poll fuel' (timeElapsed + checkInterval)
      else ret timeElapsed
  end.

(** Fuel given to the loop: one more than [timeout / checkInterval]. *)
Definition poll_fuel : nat := S (Z.to_nat (timeout / checkInterval)).

(** The [try] block that waits for the checkbox challenge to be solved. *)
Definition await_captcha_solved : M unit :=
  try_catch
    (timeElapsed <- captcha_poll poll_fuel 0 ;;
     if timeElapsed >=? timeout
     then throw "CAPTCHA solving timeout exceeded. Test failed."
     else perform (WaitForTimeout 2000))
    (fun error_message => throw ("Failed to handle CAPTCHA: " ++ error_message)%string).

Record CaptchaOptions := { returnPath : option string; useMainSite : bool }.

Definition no_options : CaptchaOptions := {| returnPath := None; useMainSite := false |}.

Definition handlePossibleCaptcha (this : BasePage) (options : CaptchaOptions) : M unit :=
  let returnPath := match returnPath options with
                    | Some p => if String.eqb p EmptyString then "account/login" else p
                    | None => "account/login"
                    end in
  let useMainSite := useMainSite options in
  accessDeniedVisible <- isVisible_or_false accessDeniedText (Some 3000) ;;
  (if accessDeniedVisible then
     perform PageReload ;;;
     perform (WaitForTimeout 2000)
   else ret tt) ;;;
  isCaptchaPageVisible <- isVisible_or_false captchaPageTitle (Some 3000) ;;
  (if isCaptchaPageVisible then
     if headless
     then throw "CAPTCHA detected in headless mode. Test cannot proceed automatically."
     else await_captcha_solved
   else ret tt) ;;;
  isImageSelectVisible <- isVisible_or_false imageSelectLocator (Some 2000) ;;
  (if isImageSelectVisible then
     try_catch
       (perform (WaitImageChallengeGone 120000) ;;;
        perform (WaitForTimeout 2000))
       (fun _ => throw "Image CAPTCHA solving timeout exceeded. Test failed.")
   else ret tt) ;;;
  currentUrl <- perform PageUrl ;;
  let onMainSite := str_includes currentUrl "www.funda.nl" in
  let authSitePath := str_includes returnPath "account/" in
  if (onMainSite && authSitePath && negb useMainSite)
     || (negb onMainSite && negb authSitePath && useMainSite)
     || negb (str_includes currentUrl returnPath)
  then
    navigate this returnPath useMainSite ;;;
    perform (WaitForTimeout 1000)
  else ret tt.

(** *** [LoginPage extends BasePage] *)

Definition loginForm_emailInput : string := ("input[id=" ++ quoted "UserName" ++ "]")%string.
Definition loginForm_passwordInput : string := ("input[id=" ++ quoted "Password" ++ "]")%string.
Definition loginForm_loginButton : string := ("button:has-text(" ++ quoted "Log in" ++ ")")%string.
Definition loginForm_rememberMeCheckbox : string :=
  ("input[type=" ++ quoted "checkbox" ++ "][id=" ++ quoted "RememberMe" ++ "]")%string.
Definition logoutLinks : string :=
  ("a:has-text(" ++ quoted "Uitloggen" ++ "), a:has-text(" ++ quoted "Logout" ++ ")")%string.

(** [new LoginPage(page)] calls [super(page)]. *)
Definition new_LoginPage : BasePage := new_BasePage None.

Definition navigateToLogin (this : BasePage) : M unit :=
  navigate this "account/login" false ;;;
  acceptCookiesIfVisible ;;;
  handlePossibleCaptcha this no_options.

Definition to_login_page : CaptchaOptions :=
  {| returnPath := Some "account/login"; useMainSite := false |}.

(** [LoginPage.login(email, password)] *)
Definition LoginPage_login (this : BasePage) (email password : value) : M bool :=
  try_catch
    (alreadyLoggedIn <- isLoggedIn ;;
     if alreadyLoggedIn then ret true
     else
       navigateToLogin this ;;;
       handlePossibleCaptcha this to_login_page ;;;
       isOnLoginForm <- isVisible_or_false loginForm_loginButton (Some 5000) ;;
       (if negb isOnLoginForm then
          navigateToLogin this ;;;
          handlePossibleCaptcha this to_login_page
        else ret tt) ;;;
       perform (Fill loginForm_emailInput email) ;;;
       perform (Fill loginForm_passwordInput password) ;;;
       try_catch
         (isChecked <- try_catch (perform (IsChecked loginForm_rememberMeCheckbox))
                                 (fun _ => ret false) ;;
          if negb isChecked then perform (Check loginForm_rememberMeCheckbox) else ret tt)
         (fun _ => ret tt) ;;;
       perform (Click loginForm_loginButton) ;;;
       handlePossibleCaptcha this to_login_page ;;;
       try_catch (perform (WaitNavigationOrSelector logoutLinks 10000)) (fun _ => ret tt) ;;;
       isLoggedIn)
    (fun _ => ret false).

(** ** [src/utils/commands.js] *)

Definition testDataPath : string := "../data/test-data.json".
Definition credentialsPath : string := "../data/credentials.json".

(** [login(page, credentials)] *)
Definition login (credentials : value) : M bool :=
  let loginPage := new_LoginPage in
  navigateToLogin loginPage ;;;
  email <- get credentials "email" ;;
  password <- get credentials "password" ;;
  LoginPage_login loginPage email password.

Definition testData_not_found (dataType : string) : string :=
  ("Test data for type " ++ quoted dataType ++ " not found in data file")%string.

Definition getTestData (dataType : string) : M value :=
  data <- loadTestData testDataPath ;;
  entry <- get data dataType ;;
  if negb (truthy entry) then throw (testData_not_found dataType)
  else get data dataType.

Definition credentials_not_found (userType : string) : string :=
  ("Credentials for user type " ++ quoted userType ++ " not found in credentials file")%string.

Definition getCredentials (userType : string) : M value :=
  data <- loadTestData credentialsPath ;;
  users <- get data "users" ;;
  if negb (truthy users) then throw (credentials_not_found userType)
  else
    user <- get users userType ;;
    if negb (truthy user) then throw (credentials_not_found userType)
    else get users userType.

(** ** [src/utils/ensureLoggedIn.js] *)

Definition storageStatePath : string := "../data/state.json".

(** The first [try] block.  [Some b]: the function returns [b] from
    inside the block; [None]: control falls through to the manual login. *)
Definition login_with_stored_cookies_body : M (option bool) :=
  perform (FsAccess storageStatePath) ;;;
  stateContent <- perform (FsReadFile storageStatePath) ;;
  state <- parse stateContent ;;
  usable <- has_cookies state ;;
  if truthy usable then
    cookies <- get state "cookies" ;;
    perform (AddCookies cookies) ;;;
    perform (PageGoto "https://www.funda.nl") ;;;
    loginStateAfterCookies <- isLoggedIn ;;
    if loginStateAfterCookies then ret (Some true) else ret None
  else ret None.

Definition login_with_stored_cookies : M (option bool) :=
  try_catch login_with_stored_cookies_body (fun _ => ret None).

(** The body of the second [try] block, and the block. *)
Definition manual_login_body : M bool :=
  credentials <- getCredentials "testUser" ;;
  loginResult <- login credentials ;;
  if loginResult then ret true else ret false.

Definition manual_login : M bool :=
  try_catch manual_login_body (fun _ => ret false).

Definition ensureLoggedIn : M bool :=
  isAlreadyLoggedIn <- isLoggedIn ;;
  if isAlreadyLoggedIn then ret true
  else
    returned <- login_with_stored_cookies ;;
    match returned with
    | Some b => ret b
    | None => manual_login
    end.

End Program.

(* ------------------------------------------------------------------ *)
(** ** Reading traces *)

Section Traces.
Context {number : Type}.

Local Abbreviation event := (event number).
Local Abbreviation M := (M number).

(** The call settled by rejecting. *)
Definition failed (e : event) : bool :=
  match e with
  | Ev _ (Rejected _) => true
  | Ev _ (Resolved _) => false
  end.

(** The call is a visibility lookup, [locator.isVisible]. *)
Definition is_visibility_lookup (e : event) : bool :=
  match e with
  | Ev a _ => match a with IsVisible _ _ => true | _ => false end
  end.

(** A failure of anything but a visibility lookup. *)
Definition failed_outside_lookup (e : event) : bool :=
  failed e && negb (is_visibility_lookup e).

(** A completed sleep of the polling loop: [waitForTimeout(checkInterval)]. *)
Definition completed_poll (e : event) : bool :=
  match e with
  | Ev a o =>
      match a with WaitForTimeout ms => ms =? checkInterval | _ => false end
      && match o with Resolved _ => true | Rejected _ => false end
  end.

(** How many sleeps of the polling loop completed. *)
Definition polls (n : list event) : Z := Z.of_nat (List.length (filter completed_poll n)).

(** What the polling loop does: visibility lookups and sleeps of
    [checkInterval], nothing else. *)
Definition poll_event (e : event) : bool :=
  match e with
  | Ev a _ => match a with
              | IsVisible _ _ => true
              | WaitForTimeout ms => ms =? checkInterval
              | _ => false
              end
  end.

(** A visibility lookup that answered "visible". *)
Definition seen {T} (a : action number T) (o : outcome T) : bool :=
  match a in action _ T return outcome T -> bool with
  | IsVisible _ _ =>
      fun o => match o with Resolved b => b | Rejected _ => false end
  | _ => fun _ => false
  end o.

(** The checkbox interstitial is detected. *)
Definition checkbox_challenge_detected (e : event) : bool :=
  match e with
  | Ev a o =>
      match a with
      | IsVisible sel _ => String.eqb sel captchaPageTitle
      | _ => false
      end && seen a o
  end.

(** The stored state file is touched. *)
Definition reads_state_file (e : event) : bool :=
  match e with
  | Ev a _ => match a with
              | FsAccess p | FsReadFile p => String.eqb p storageStatePath
              | _ => false
              end
  end.

(** Cookies are applied, or the home page is loaded to recheck the login state. *)
Definition applies_cookies (e : event) : bool :=
  match e with
  | Ev a _ => match a with
              | AddCookies _ => true
              | PageGoto u => String.eqb u "https://www.funda.nl"
              | _ => false
              end
  end.

(** A call that [isLoggedIn] makes. *)
Definition login_check_event (e : event) : bool :=
  match e with
  | Ev a _ => match a with
              | PageUrl | WaitForTimeout _ | IsVisible _ _ => true
              | Click sel => String.eqb sel accountMenu
              | _ => false
              end
  end.

(** A call that only the manual login makes: reading the credentials,
    loading the login page, driving the form. *)
Definition manual_login_event (e : event) : bool :=
  match e with
  | Ev a _ => match a with
              | FsReadFile p => String.eqb p credentialsPath
              | PageGoto u => negb (String.eqb u "https://www.funda.nl")
              | PageReload | LocatorWaitFor _ _ | Fill _ _ | IsChecked _ | Check _
              | WaitImageChallengeGone _ | WaitNavigationOrSelector _ _ => true
              | Click sel => negb (String.eqb sel accountMenu)
              | _ => false
              end
  end.

(** The home page has been loaded for the recheck. *)
Definition home_page_loaded (e : event) : bool :=
  match e with
  | Ev a o =>
      match a with
      | PageGoto u => String.eqb u "https://www.funda.nl"
      | _ => false
      end && negb (failed (Ev a o))
  end.

(** A call the manual login may make: anything but touching the stored
    state or applying cookies. *)
Definition manual_phase_event (e : event) : bool :=
  negb (reads_state_file e) && negb (applies_cookies e).

(** A call made before the manual login starts. *)
Definition before_manual_login (e : event) : bool := negb (manual_login_event e).

(** Any call at all. *)
Definition any_event (e : event) : bool := true.

(** A computation that never runs out of fuel and only makes calls in [P]. *)
Definition emits (P : event -> bool) {A} (m : M A) : Prop :=
  forall h, fst (m h) <> OutOfFuel /\ forallb P (snd (m h)) = true.

(** A computation that makes no call and ignores the history. *)
Definition pure {A} (m : M A) : Prop :=
  forall h, m h = (fst (m []), []).

(** A computation that always completes normally. *)
Definition always_returns {A} (m : M A) : Prop :=
  forall h, exists a n, m h = (Ok a, n).


(** The [cookies] array of a snapshot, if it has one. *)
Definition cookies_array (state : value number) : option (list (value number)) :=
  match state with
  | VObj fields =>
      match own_property "cookies" fields with
      | Some (VArr items) => Some items
      | _ => None
      end
  | _ => None
  end.
End Traces.

(* ------------------------------------------------------------------ *)
(** ** The order of the checks of [isLoggedIn] *)

Section LookupOrder.
Context {number : Type}.

Local Abbreviation event := (event number).

(** The selector of a visibility lookup that did not see its element:
    the lookup answered "not visible", or it failed. *)
Definition missed (e : event) : option string :=
  match e with
  | Ev a o =>
      match a in action _ T return outcome T -> option string with
      | IsVisible selector _ =>
          fun o => match o with
                   | Resolved true => None
                   | Resolved false | Rejected _ => Some selector
                   end
      | _ => fun _ => None
      end o
  end.

(** The call is the lookup of [selector], with the one-second timeout
    every lookup of [isLoggedIn] has. *)
Definition looks_up (selector : string) (e : event) : bool :=
  match e with
  | Ev a _ =>
      match a with
      | IsVisible sel t =>
          String.eqb sel selector
          && match t with Some ms => ms =? 1000 | None => false end
      | _ => false
      end
  end.

(** The lookup that [isLoggedIn] goes on to when the lookup of [selector]
    saw nothing, in the order of the source: the "Account" text, the
    account menu (and the log-out link behind it), then the three fields
    of the login form.  [None]: that lookup was the last check. *)
Definition next_check (selector : string) : option string :=
  if String.eqb selector "text=Account" then Some accountMenu
  else if String.eqb selector accountMenu then Some loginForm_emailInput
  else if String.eqb selector logoutLink then Some loginForm_emailInput
  else if String.eqb selector loginForm_emailInput then Some loginForm_passwordInput
  else if String.eqb selector loginForm_passwordInput then Some loginForm_loginButton
  else None.

(** In a run [n] that answered [b], every lookup that saw nothing is
    followed by the next check; after the last check the answer is
    [false]. *)
Fixpoint misses_followed (b : bool) (n : list event) : bool :=
  match n with
  | [] => true
  | e :: post =>
      match missed e with
      | Some selector =>
          match next_check selector with
          | Some following =>
              match post with
              | e' :: _ => looks_up following e'
              | [] => false
              end
          | None =>
              match post with
              | [] => negb b
              | _ :: _ => false
              end
          end
      | None => true
      end
      && misses_followed b post
  end.
End LookupOrder.

(* ------------------------------------------------------------------ *)
(** ** Concrete environments

    Small scripted browsers and file systems on which the definitions
    above are evaluated.  Numbers are integers here. *)

Module Scenarios.

(** Every wait, click and navigation succeeds, nothing is visible and no
    file exists. *)
Definition quiet {T} (a : action Z T) : outcome T :=
  match a in action _ T return outcome T with
  | PageUrl => Resolved "https://login.funda.nl/account/login"
  | PageGoto _ | PageReload | WaitForTimeout _ | LocatorWaitFor _ _ | Click _
  | Fill _ _ | Check _ | WaitImageChallengeGone _ | WaitNavigationOrSelector _ _
  | AddCookies _ => Resolved tt
  | IsVisible _ _ | IsChecked _ => Resolved false
  | FsAccess _ => Rejected "ENOENT: no such file or directory"
  | FsReadFile _ => Rejected "ENOENT: no such file or directory"
  end.

(** An environment from a script of answers, a HEADLESS setting and a
    table standing for [JSON.parse]. *)
Definition scripted (answer : list (event Z) -> forall T, action Z T -> outcome T)
    (HEADLESS : option string) (JSON_parse : string -> option (value Z)) : Env Z :=
  {| respond := answer;
     HEADLESS := HEADLESS;
     JSON_parse := JSON_parse;
     number_truthy := fun n => negb (n =? 0);
     foreign_get := fun _ _ => VUndefined;
     foreign_length_gt_zero := fun _ => Some false |}.

Definition no_json (text : string) : option (value Z) := None.

(** The login page, where the text "Account" matches several elements, so
    that the strict lookup ['text=Account'] rejects, while the account
    menu and its log-out link are there. *)
Definition account_text_ambiguous : Env Z :=
  scripted
    (fun _ T a =>
       match a in action _ T return outcome T with
       | IsVisible sel _ =>
           if String.eqb sel "text=Account"
           then Rejected "strict mode violation: locator resolved to 2 elements"
           else Resolved (String.eqb sel accountMenu || String.eqb sel logoutLink)
       | a' => quiet a'
       end)
    None no_json.

(** The account menu is shown but clicking it fails. *)
Definition account_menu_click_fails : Env Z :=
  scripted
    (fun _ T a =>
       match a in action _ T return outcome T with
       | IsVisible sel _ => Resolved (String.eqb sel accountMenu)
       | Click _ => Rejected "element is not attached to the DOM"
       | a' => quiet a'
       end)
    None no_json.

(** A headless run that lands on the image-selection challenge: the
    interstitial title is absent, the image grid is visible. *)
Definition headless_image_challenge : Env Z :=
  scripted
    (fun _ T a =>
       match a in action _ T return outcome T with
       | IsVisible sel _ => Resolved (String.eqb sel imageSelectLocator)
       | a' => quiet a'
       end)
    None no_json.

(** A headless run that lands on the checkbox interstitial. *)
Definition headless_checkbox_challenge : Env Z :=
  scripted
    (fun _ T a =>
       match a in action _ T return outcome T with
       | IsVisible sel _ => Resolved (String.eqb sel captchaPageTitle)
       | a' => quiet a'
       end)
    None no_json.

(** A headed run (HEADLESS=false) whose checkbox interstitial never clears. *)
Definition headed_challenge_never_solved : Env Z :=
  scripted
    (fun _ T a =>
       match a in action _ T return outcome T with
       | IsVisible sel _ => Resolved (String.eqb sel captchaPageTitle)
       | a' => quiet a'
       end)
    (Some "false") no_json.

(** A file system with one readable file. *)
Definition one_file (path content : string) {T} (a : action Z T) : outcome T :=
  match a in action _ T return outcome T with
  | FsAccess p => if String.eqb p path then Resolved tt else quiet (FsAccess p)
  | FsReadFile p => if String.eqb p path then Resolved content else quiet (FsReadFile p)
  | a' => quiet a'
  end.

(** The JSON texts used below. *)
Definition text_empty_object : string := "{}".

Definition text_no_cookie : string := ("{" ++ quoted "cookies" ++ ":[]}")%string.

Definition text_one_cookie : string :=
  ("{" ++ quoted "cookies" ++ ":[{" ++ quoted "name" ++ ":" ++ quoted "a" ++ ","
       ++ quoted "value" ++ ":" ++ quoted "b" ++ "}]}")%string.

Definition text_credentials : string :=
  ("{" ++ quoted "users" ++ ":{" ++ quoted "testUser" ++ ":{" ++ quoted "email" ++ ":"
       ++ quoted "e" ++ "," ++ quoted "password" ++ ":" ++ quoted "p" ++ "}}}")%string.

Definition text_test_data : string :=
  ("{" ++ quoted "search" ++ ":{" ++ quoted "location" ++ ":" ++ quoted "Amsterdam"
       ++ "}}")%string.

(** [JSON.parse] on these texts. *)
Definition json_table (text : string) : option (value Z) :=
  if String.eqb text text_empty_object then Some (VObj [])
  else if String.eqb text text_no_cookie then Some (VObj [("cookies", VArr [])])
  else if String.eqb text text_one_cookie
       then Some (VObj [("cookies", VArr [VObj [("name", VStr "a"); ("value", VStr "b")]])])
  else if String.eqb text text_credentials
       then Some (VObj [("users",
                         VObj [("testUser",
                                VObj [("email", VStr "e"); ("password", VStr "p")])])])
  else if String.eqb text text_test_data
       then Some (VObj [("search", VObj [("location", VStr "Amsterdam")])])
  else None.

(** A state file holding the empty object. *)
Definition state_file_empty_object : Env Z :=
  scripted (fun _ T a => one_file storageStatePath text_empty_object a) None json_table.

(** A state file with an empty cookie list, and one with a cookie. *)
Definition state_file_no_cookie : Env Z :=
  scripted (fun _ T a => one_file storageStatePath text_no_cookie a) None json_table.

Definition state_file_one_cookie : Env Z :=
  scripted (fun _ T a => one_file storageStatePath text_one_cookie a)
           None json_table.

(** Fixture files as shipped: a [search] scenario, a [testUser]. *)
Definition fixture_files : Env Z :=
  scripted
    (fun _ T a =>
       match a in action _ T return outcome T with
       | FsReadFile p =>
           if String.eqb p testDataPath then Resolved text_test_data
           else if String.eqb p credentialsPath
                then Resolved text_credentials
                else quiet (FsReadFile p)
       | a' => quiet a'
       end)
    None json_table.

(** A session whose stored cookie is still good: the login page is shown
    until the cookies are applied, the main site afterwards. *)
Definition stored_cookie_still_good : Env Z :=
  scripted
    (fun h T a =>
       match a in action _ T return outcome T with
       | PageUrl =>
           if existsb applies_cookies h
           then Resolved "https://www.funda.nl/"
           else Resolved "https://login.funda.nl/account/login"
       | a' => one_file storageStatePath text_one_cookie a'
       end)
    None json_table.

(** A session that is already on the main site. *)
Definition already_logged_in : Env Z :=
  scripted
    (fun _ T a =>
       match a in action _ T return outcome T with
       | PageUrl => Resolved "https://www.funda.nl/koop"
       | a' => one_file storageStatePath text_one_cookie a'
       end)
    None json_table.

(** The login form has been submitted. *)
Definition login_submitted (e : event Z) : bool :=
  match e with
  | Ev a _ => match a with
              | Click sel => String.eqb sel loginForm_loginButton
              | _ => false
              end
  end.

(** A first run: no state file yet, credentials on disk, and a login form
    that lets the user in once it is submitted. *)
Definition first_run_login_succeeds : Env Z :=
  scripted
    (fun h T a =>
       match a in action _ T return outcome T with
       | PageUrl =>
           if existsb login_submitted h
           then Resolved "https://www.funda.nl/"
           else Resolved "https://login.funda.nl/account/login"
       | IsVisible sel _ => Resolved (String.eqb sel loginForm_loginButton)
       | FsReadFile p =>
           if String.eqb p credentialsPath then Resolved text_credentials
           else quiet (FsReadFile p)
       | a' => quiet a'
       end)
    None json_table.

(** A run with neither a state file nor credentials, on the login page. *)
Definition nothing_on_disk : Env Z :=
  scripted (fun _ T a => quiet a) None json_table.




End Scenarios.

(* ------------------------------------------------------------------ *)
(** ** More of [src/pages/NetworkMockPage.js]: what a run leaves behind *)

Module NetworkMockRuns.
Import NetworkMockPage.
Section Runs.
Variable char : Type.

(** The requests handed to the interceptors of [setupMockResponse] during
    [ops], in arrival order. *)
Definition mocked (ops : list (operation char)) : list (request char) :=
  flat_map (fun op => match op with
                      | Deliver _ (Mock _) req => [req]
                      | _ => []
                      end) ops.

(** The route of the catch-all observer, when the flag says it is there. *)
Definition observer_route (st : state char) : list (string * handler) :=
  if isMonitoringRequests st then [("**", Monitor)] else [].

(** The route table of an instance: the observer first, if installed,
    then interceptors only. *)
Definition routes_in_order (st : state char) : Prop :=
  exists mocks,
    page_routes st = observer_route st ++ mocks
    /\ forallb (fun r => negb (is_monitor r)) mocks = true
    /\ (mocks = [] \/ isMonitoringRequests st = true)
    /\ page_response_listeners st = List.length (observer_route st).
End Runs.

Arguments mocked {char} ops.
Arguments observer_route {char} st.
Arguments routes_in_order {char} st.
End NetworkMockRuns.

(* ------------------------------------------------------------------ *)
(** ** More ways to read a trace *)

Section MoreTraces.
Context {number : Type}.

Local Abbreviation event := (event number).

(** The call is [fs.access] or [fs.readFile] on [path]. *)
Definition touches_file (path : string) (e : event) : bool :=
  match e with
  | Ev a _ => match a with
              | FsAccess p | FsReadFile p => String.eqb p path
              | _ => false
              end
  end.

(** The call is [addCookies]. *)
Definition is_add_cookies (e : event) : bool :=
  match e with
  | Ev a _ => match a with AddCookies _ => true | _ => false end
  end.
End MoreTraces.

(* ------------------------------------------------------------------ *)
(** ** More of [src/pages/BasePage.js] *)

Section MorePages.
Context {number : Type}.
Variable E : Env number.

Local Abbreviation event := (event number).
Local Abbreviation M := (M number).

(** [LoginPage.navigateToRegistration()] *)
Definition navigateToRegistration (this : BasePage) : M unit :=
  navigate E this "account/aanmelden" false ;;;
  acceptCookiesIfVisible E ;;;
  handlePossibleCaptcha E this no_options.

(** The address [navigate(path, { useMainSite })] loads. *)
Definition navigate_target (this : BasePage) (path : string) (useMainSite : bool) : string :=
  ((if existsb (fun prefix => str_startsWith path prefix) alwaysUseMainSitePaths
    then domains_main
    else if useMainSite then domains_main else baseUrl this) ++ "/" ++ path)%string.

(** [options.returnPath || 'account/login'] *)
Definition return_path_of (options : CaptchaOptions) : string :=
  match returnPath options with
  | Some p => if String.eqb p EmptyString then "account/login" else p
  | None => "account/login"
  end.

(** The test of [isLoggedIn] on the page address. *)
Definition address_says_logged_in (url : string) : bool :=
  str_includes url "www.funda.nl"
  || (negb (str_includes url "login.funda.nl") && str_includes url "funda.nl").

(** The page address was read and passes that test. *)
Definition address_evidence (e : event) : bool :=
  match e with
  | Ev a o =>
      match a in action _ T return outcome T -> bool with
      | PageUrl => fun o => match o with
                            | Resolved url => address_says_logged_in url
                            | Rejected _ => false
                            end
      | _ => fun _ => false
      end o
  end.

(** The "Account" text or the log-out link was looked up and seen. *)
Definition account_evidence (e : event) : bool :=
  match e with
  | Ev a o =>
      match a with
      | IsVisible sel _ => String.eqb sel "text=Account" || String.eqb sel logoutLink
      | _ => false
      end && seen a o
  end.

(** Time asked for in sleeps, in milliseconds. *)
Definition sleep_of (e : event) : Z :=
  match e with
  | Ev a _ => match a with WaitForTimeout ms => ms | _ => 0 end
  end.

Definition total_sleep (n : list event) : Z :=
  fold_right (fun e acc => sleep_of e + acc) 0 n.

Definition is_click (e : event) : bool :=
  match e with
  | Ev a _ => match a with Click _ => true | _ => false end
  end.

Definition is_reload (e : event) : bool :=
  match e with
  | Ev a _ => match a with PageReload => true | _ => false end
  end.

Definition is_goto (e : event) : bool :=
  match e with
  | Ev a _ => match a with PageGoto _ => true | _ => false end
  end.

(** The access-denied page was looked up and seen. *)
Definition access_denied_seen (e : event) : bool :=
  match e with
  | Ev a o =>
      match a with
      | IsVisible sel _ => String.eqb sel accessDeniedText
      | _ => false
      end && seen a o
  end.

(** The cookie banner's accept button was looked up and seen. *)
Definition accept_button_seen (e : event) : bool :=
  match e with
  | Ev a o =>
      match a with
      | IsVisible sel _ => String.eqb sel cookieBanner_acceptButton
      | _ => false
      end && seen a o
  end.

(** The call is a click on something else than the accept button. *)
Definition other_click (e : event) : bool :=
  match e with
  | Ev a _ => match a with
              | Click sel => negb (String.eqb sel cookieBanner_acceptButton)
              | _ => false
              end
  end.

(** The waiting phase only looks up and sleeps. *)
Definition wait_phase_event (e : event) : bool :=
  match e with
  | Ev a _ => match a with IsVisible _ _ | WaitForTimeout _ => true | _ => false end
  end.

(** The list ends with [suffix]. *)
Definition ends_with (n suffix : list event) : Prop :=
  exists pre, n = pre ++ suffix.
End MorePages.

(* ------------------------------------------------------------------ *)
(** ** Reading the runs of the login flow *)

Section LoginRuns.
Context {number : Type}.
Variable E : Env number.

Local Abbreviation event := (event number).
Local Abbreviation M := (M number).

(** The login form is submitted: the click on its button. *)
Definition is_submit (e : event) : bool :=
  match e with
  | Ev a _ => match a with
              | Click sel => String.eqb sel loginForm_loginButton
              | _ => false
              end
  end.

Definition no_submit (e : event) : bool := negb (is_submit e).

(** A class of calls that holds everything but the submission. *)
Definition besides_submit (P : event -> bool) : Prop :=
  forall e, is_submit e = false -> P e = true.

(** The events [n], added after history [h], contain a run of
    [isLoggedIn] that answered [true]. *)
Definition contains_true_check (h n : list event) : Prop :=
  exists pre check post,
    n = pre ++ check ++ post
    /\ isLoggedIn E (h ++ pre) = (Ok true, check).

(** A computation that answers [true] only around such a run. *)
Definition true_only_after_check (m : M bool) : Prop :=
  forall h n, m h = (Ok true, n) -> contains_true_check h n.

(** A computation in which the form is submitted only after [wanted]
    calls were all made. *)
Definition submits_only_after (wanted : list event) {A} (m : M A) : Prop :=
  forall h, existsb is_submit (snd (m h)) = true ->
            forall e, In e wanted -> In e (snd (m h)).
End LoginRuns.

(* ------------------------------------------------------------------ *)
(** ** [src/utils/helpers.js]: [generateRandomPassword] *)

Module RandomPassword.

(** [const chars = '...'] *)
Definition chars : string :=
  "abcdefghijklmnopqrstuvwxyzABCDEFGHIJKLMNOPQRSTUVWXYZ0123456789!@#$%^&*()".

(** What [Math.random] contributes to one call: the index
    [Math.floor(Math.random() * chars.length)] of each turn of the loop,
    and the order [sort(() => 0.5 - Math.random())] leaves the characters
    in. *)
Record Randomness := {
  random_index : nat -> nat;
  shuffle : list ascii -> list ascii
}.

(** [chars[randomIndex]], as [+=] appends it: the character, or the text
    of [undefined] past the end. *)
Definition char_at (randomIndex : nat) : string :=
  match String.get randomIndex chars with
  | Some c => String c EmptyString
  | None => "undefined"
  end.

(** [for (let i = password.length; i < length; i++) password += chars[...]].
    [turn] counts the turns already taken.  [None]: out of fuel. *)
Fixpoint fill (R : Randomness) (fuel : nat) (i length : Z) (turn : nat)
    (password : string) : option string :=
  if i <? length then
    match fuel with
    | O => None
    | S fuel' =>
        fill R fuel' (i + 1) length (S turn)
             (password ++ char_at (random_index R turn))%string
    end
  else Some password.

(** [generateRandomPassword(length = 0)], for an integer [length]. *)
Definition generateRandomPassword (R : Randomness) (length : Z) : option string :=
  let password := ("A" ++ "a" ++ "1" ++ "!")%string in
  match fill R (Z.to_nat (length - 4)) (Z.of_nat (String.length password)) length 0
             password with
  | Some filled =>
      Some (string_of_list_ascii (shuffle R (list_ascii_of_string filled)))
  | None => None
  end.

(** The two assumptions on the randomness: [Math.random] stays below 1,
    and sorting rearranges. *)
Definition indices_in_range (R : Randomness) : Prop :=
  forall turn, (random_index R turn < String.length chars)%nat.

Definition shuffle_rearranges (R : Randomness) : Prop :=
  forall l, Permutation l (shuffle R l).

(** A concrete source of randomness. *)
Definition sample : Randomness :=
  {| random_index := fun turn => ((7 * turn + 3) mod 72)%nat;
     shuffle := @rev ascii |}.
End RandomPassword.

(* ------------------------------------------------------------------ *)
(** ** More concrete environments *)

Module MoreScenarios.
Import Scenarios.

(** A fixture file that is there but is not JSON. *)
Definition text_broken : string := "{ search: ".

Definition broken_fixture_file : Env Z :=
  scripted (fun _ T a => one_file testDataPath text_broken a) None json_table.

(** A fixture file whose [search] entry is [null]. *)
Definition text_null_entry : string := ("{" ++ quoted "search" ++ ":null}")%string.

Definition json_table_with_null (text : string) : option (value Z) :=
  if String.eqb text text_null_entry then Some (VObj [("search", VNull)])
  else json_table text.

Definition fixture_with_null_entry : Env Z :=
  scripted (fun _ T a => one_file testDataPath text_null_entry a) None json_table_with_null.

(** A credentials file holding the empty object. *)
Definition credentials_without_users : Env Z :=
  scripted (fun _ T a => one_file credentialsPath text_empty_object a) None json_table.

(** The cookie banner is up. *)
Definition cookie_banner_shown : Env Z :=
  scripted
    (fun _ T a =>
       match a in action _ T return outcome T with
       | IsVisible sel _ => Resolved (String.eqb sel cookieBanner_acceptButton)
       | a' => quiet a'
       end)
    None no_json.

(** The access-denied page is shown until the page is reloaded. *)
Definition reloaded (e : event Z) : bool :=
  match e with
  | Ev a _ => match a with PageReload => true | _ => false end
  end.

Definition access_denied_until_reload : Env Z :=
  scripted
    (fun h T a =>
       match a in action _ T return outcome T with
       | IsVisible sel _ =>
           Resolved (String.eqb sel accessDeniedText && negb (existsb reloaded h))
       | a' => quiet a'
       end)
    None no_json.

(** A headed run on the checkbox interstitial in which sleeping fails. *)
Definition sleep_fails : Env Z :=
  scripted
    (fun _ T a =>
       match a in action _ T return outcome T with
       | IsVisible sel _ => Resolved (String.eqb sel captchaPageTitle)
       | WaitForTimeout _ => Rejected "boom"
       | a' => quiet a'
       end)
    (Some "false") no_json.

(** The site cannot be reached. *)
Definition site_unreachable : Env Z :=
  scripted
    (fun _ T a =>
       match a in action _ T return outcome T with
       | PageGoto _ => Rejected "net::ERR_NAME_NOT_RESOLVED"
       | a' => quiet a'
       end)
    None json_table.

(** Requests and the operations of a small test. *)
Definition request_to (address : string) : NetworkMockPage.request ascii :=
  {| NetworkMockPage.request_url := list_ascii_of_string address |}.

Definition search_was_observed : list (NetworkMockPage.operation ascii) :=
  [ NetworkMockPage.CallStartRequestMonitoring ascii true;
    NetworkMockPage.Deliver ascii NetworkMockPage.Monitor
      (request_to "https://api.funda.nl/search?q=Amsterdam") ].

Definition later_traffic : list (NetworkMockPage.operation ascii) :=
  [ NetworkMockPage.CallSetupMockResponse ascii "**/listings" "[]" true true;
    NetworkMockPage.Deliver ascii (NetworkMockPage.Mock "[]")
      (request_to "https://api.funda.nl/listings");
    NetworkMockPage.Deliver ascii NetworkMockPage.Monitor
      (request_to "https://www.funda.nl/");
    NetworkMockPage.CallGetInterceptedUrls ascii ].

(** The options a caller on the registration page would pass. *)
Definition to_registration_page : CaptchaOptions :=
  {| returnPath := Some "account/aanmelden"; useMainSite := false |}.

(** The record of a test user. *)
Definition test_user : value Z := VObj [("email", VStr "e"); ("password", VStr "p")].
End MoreScenarios.

(* ================================================================== *)
(** * Part II. Properties                                              *)
(* ================================================================== *)

(** ** Substring search *)

Section CodeUnitFacts.
Variable char : Type.
Variable char_eq_dec : forall x y : char, {x = y} + {x <> y}.

Lemma startsWith_prefix (s p : list char) :
  startsWith char_eq_dec s p = true <-> exists post, s = p ++ post.
Proof.
  revert s; induction p as [|c p IH]; intros s; simpl.
  - split; [intros _; now exists s | reflexivity].
  - destruct s as [|d s].
    + split; [discriminate | intros [post H]; discriminate].
    + destruct (char_eq_dec c d) as [->|Hne].
      * rewrite IH. split; intros [post H]; exists post.
        -- now rewrite H.
        -- now injection H.
      * split; [discriminate|]. intros [post H]. injection H as H1 _.
        now symmetry in H1.
Qed.

Lemma includes_substring (s p : list char) :
  includes char_eq_dec s p = true <-> substring_of p s.
Proof.
  unfold substring_of. induction s as [|d s IH]; simpl.
  - rewrite orb_false_r, startsWith_prefix. split.
    + intros [post H]. now exists [], post.
    + intros (pre & post & H). destruct pre as [|x pre]; [|discriminate].
      now exists post.
  - rewrite orb_true_iff, startsWith_prefix, IH. split.
    + intros [[post H] | (pre & post & H)].
      * now exists [], post.
      * exists (d :: pre), post. now rewrite H.
    + intros (pre & post & H). destruct pre as [|x pre].
      * left. now exists post.
      * right. injection H as _ H. now exists pre, post.
Qed.
End CodeUnitFacts.

(** ** The network-mock harness *)

Module NetworkMockFacts.
Import NetworkMockPage.
Section Facts.
Variable char : Type.
Variable char_eq_dec : forall x y : char, {x = y} + {x <> y}.

Local Abbreviation state := (state char).
Local Abbreviation operation := (operation char).

(** C2. [wasUrlPatternIntercepted(S)] is true exactly when some recorded
    URL contains [S] as a literal substring: code units are compared
    for equality, nothing is folded, expanded or normalised. *)
Theorem wasUrlPatternIntercepted_iff_some_url_contains (st : state) (S : list char) :
  wasUrlPatternIntercepted char_eq_dec S st = true
  <-> exists u, In u (interceptedUrls st) /\ substring_of S u.
Proof.
  unfold wasUrlPatternIntercepted.
  rewrite Nat.ltb_lt. split.
  - intros Hlen.
    destruct (filter (fun u => includes char_eq_dec u S) (interceptedUrls st))
      as [|u rest] eqn:Hf; [simpl in Hlen; lia|].
    assert (Hin : In u (filter (fun u => includes char_eq_dec u S) (interceptedUrls st)))
      by (rewrite Hf; now left).
    apply filter_In in Hin as [Hin Hinc].
    exists u. split; [assumption|]. now apply includes_substring in Hinc.
  - intros (u & Hin & Hsub).
    apply (includes_substring char char_eq_dec) in Hsub.
    assert (Hf : In u (filter (fun u => includes char_eq_dec u S) (interceptedUrls st)))
      by (apply filter_In; now split).
    destruct (filter _ _); [contradiction | simpl; lia].
Qed.

Lemma step_log (op : operation) (st : state) :
  interceptedUrls (step op st) = interceptedUrls st ++ observed [op].
Proof.
  destruct op as [ok | p b ok1 ok2 | | pattern | [|body] req]; simpl;
    rewrite ?app_nil_r; try reflexivity.
  - unfold startRequestMonitoring.
    destruct (isMonitoringRequests st), ok; reflexivity.
  - unfold setupMockResponse, startRequestMonitoring.
    destruct (isMonitoringRequests st), ok1, ok2; reflexivity.
Qed.

Lemma observed_app (ops1 ops2 : list operation) :
  observed (ops1 ++ ops2) = observed ops1 ++ observed ops2.
Proof. unfold observed. now rewrite flat_map_app. Qed.

(** C9. The log is append-only and order-preserving: each operation
    leaves the old entries in place and adds at its end exactly the URL
    the catch-all observer was handed (nothing for every other operation),
    so after any sequence of operations the log is the old log followed by
    the observed URLs in arrival order, repetitions included. *)
Theorem interceptedUrls_append_only (st : state) :
  (forall op, exists suffix,
      interceptedUrls (step op st) = interceptedUrls st ++ suffix
      /\ suffix = observed [op])
  /\ (forall ops, interceptedUrls (run ops st) = interceptedUrls st ++ observed ops).
Proof.
  split.
  - intros op. exists (observed [op]). split; [apply step_log | reflexivity].
  - intros ops. revert st. induction ops as [|op ops IH]; intros st.
    + simpl. now rewrite app_nil_r.
    + change (run (op :: ops) st) with (run ops (step op st)).
      rewrite IH, step_log.
      change (op :: ops) with ([op] ++ ops).
      now rewrite observed_app, app_assoc.
Qed.

Lemma monitors_installed_snoc (st : state) routes r :
  page_routes st = routes ++ [r] ->
  monitors_installed st =
    (List.length (filter is_monitor routes) + if is_monitor r then 1 else 0)%nat.
Proof.
  unfold monitors_installed. intros ->.
  rewrite filter_app, length_app. simpl. now destruct (is_monitor r).
Qed.

Lemma step_preserves_flag_counts_monitors (op : operation) (st : state) :
  flag_counts_monitors st -> flag_counts_monitors (step op st).
Proof.
  unfold flag_counts_monitors, monitors_installed. intros H.
  destruct op as [ok | p b ok1 ok2 | | pattern | [|body] req]; simpl; try assumption.
  - unfold startRequestMonitoring.
    destruct (isMonitoringRequests st) eqn:Hflag, ok; simpl;
      rewrite ?Hflag, ?filter_app, ?length_app; simpl; lia.
  - unfold setupMockResponse, startRequestMonitoring.
    destruct (isMonitoringRequests st) eqn:Hflag, ok1, ok2; simpl;
      rewrite ?Hflag, ?filter_app, ?length_app; simpl;
      rewrite ?filter_app, ?length_app; simpl; lia.
Qed.

Lemma run_preserves_flag_counts_monitors (ops : list operation) (st : state) :
  flag_counts_monitors st -> flag_counts_monitors (run ops st).
Proof.
  revert st. induction ops as [|op ops IH]; intros st H; [assumption|].
  apply IH. now apply step_preserves_flag_counts_monitors.
Qed.

(** C10. Once the flag is set, [startRequestMonitoring] changes nothing:
    no route, no listener, same log, same flag.  [setupMockResponse] then
    adds at most its own interceptor, and over any sequence of awaited
    operations on a fresh instance the catch-all observer is installed at
    most once. *)
Theorem startRequestMonitoring_idempotent :
  (forall (st : state) (route_ok : bool),
      isMonitoringRequests st = true ->
      startRequestMonitoring route_ok st = (Fulfilled, st))
  /\ (forall (st : state) route_ok route_ok',
      isMonitoringRequests st = false ->
      let st1 := snd (startRequestMonitoring route_ok st) in
      startRequestMonitoring route_ok' st1
      = (match route_ok, route_ok' with
         | false, false => Rejected
         | _, _ => Fulfilled
         end,
         snd (startRequestMonitoring (route_ok || route_ok') st)))
  /\ (forall (st : state) p b route_ok mock_ok,
      isMonitoringRequests st = true ->
      let st' := snd (setupMockResponse p b route_ok mock_ok st) in
      monitors_installed st' = monitors_installed st
      /\ interceptedUrls st' = interceptedUrls st
      /\ isMonitoringRequests st' = true)
  /\ (forall ops : list operation,
      (monitors_installed (run ops (constructor char)) <= 1)%nat).
Proof.
  repeat split.
  - intros st ok H. unfold startRequestMonitoring. now rewrite H.
  - intros st ok ok' H. unfold startRequestMonitoring. rewrite H.
    destruct ok; simpl.
    + reflexivity.
    + rewrite H. now destruct ok'.
  - unfold setupMockResponse, startRequestMonitoring. rewrite H.
    destruct mock_ok; simpl; [|reflexivity].
    erewrite monitors_installed_snoc by reflexivity. simpl.
    unfold monitors_installed. lia.
  - unfold setupMockResponse, startRequestMonitoring. rewrite H.
    now destruct mock_ok.
  - unfold setupMockResponse, startRequestMonitoring. rewrite H.
    now destruct mock_ok.
  - intros ops.
    assert (H : flag_counts_monitors (run ops (constructor char)))
      by (apply run_preserves_flag_counts_monitors; reflexivity).
    unfold flag_counts_monitors in H. rewrite H.
    destruct (isMonitoringRequests _); lia.
Qed.

End Facts.
End NetworkMockFacts.

(** ** Laws of the monad *)

Section MonadFacts.
Context {number : Type}.
Variable E : Env number.

Local Abbreviation M := (M number).
Local Abbreviation event := (event number).

Lemma emits_ret (P : event -> bool) {A} (a : A) : emits P (ret (number := number) a).
Proof. intros h. split; [discriminate | reflexivity]. Qed.

Lemma emits_throw (P : event -> bool) {A} (msg : string) :
  emits P (throw (number := number) (A := A) msg).
Proof. intros h. split; [discriminate | reflexivity]. Qed.

Lemma emits_perform (P : event -> bool) {T} (a : action number T) :
  (forall o, P (Ev a o) = true) -> emits P (perform E a).
Proof.
  intros HP h. unfold perform. simpl. split.
  - destruct (respond E h T a); discriminate.
  - now rewrite HP.
Qed.

Lemma emits_bind (P : event -> bool) {A B} (m : M A) (k : A -> M B) :
  emits P m -> (forall a, emits P (k a)) -> emits P (bind m k).
Proof.
  intros Hm Hk h. unfold bind.
  destruct (Hm h) as [Hf Hn]. destruct (m h) as [[a| |] n1]; simpl in *.
  - destruct (Hk a (h ++ n1)) as [Hf2 Hn2].
    destruct (k a (h ++ n1)) as [r n2]. simpl in *.
    split; [assumption|]. rewrite forallb_app. now rewrite Hn, Hn2.
  - split; [discriminate | assumption].
  - contradiction.
Qed.

Lemma emits_try_catch (P : event -> bool) {A} (m : M A) (handler : string -> M A) :
  emits P m -> (forall e, emits P (handler e)) -> emits P (try_catch m handler).
Proof.
  intros Hm Hk h. unfold try_catch.
  destruct (Hm h) as [Hf Hn]. destruct (m h) as [[a| |] n1]; simpl in *.
  - split; [discriminate | assumption].
  - destruct (Hk message (h ++ n1)) as [Hf2 Hn2].
    destruct (handler message (h ++ n1)) as [r n2]. simpl in *.
    split; [assumption|]. rewrite forallb_app. now rewrite Hn, Hn2.
  - contradiction.
Qed.

Lemma emits_weaken (P Q : event -> bool) {A} (m : M A) :
  (forall e, P e = true -> Q e = true) -> emits P m -> emits Q m.
Proof.
  intros HPQ Hm h. destruct (Hm h) as [Hf Hn]. split; [assumption|].
  rewrite forallb_forall in *. auto.
Qed.

(** A [try] whose handler is a plain [return x] swallows every error. *)
Lemma swallow_always_returns {A} (P : event -> bool) (m : M A) (x : A) :
  emits P (try_catch m (fun _ => ret x)) ->
  always_returns (try_catch m (fun _ => ret x)).
Proof.
  intros H h. destruct (H h) as [Hf _]. unfold try_catch in *.
  destruct (m h) as [[a| |] n1]; simpl in *.
  - now exists a, n1.
  - now exists x, (n1 ++ []).
  - contradiction.
Qed.

Lemma always_returns_ret {A} (a : A) : always_returns (ret (number := number) a).
Proof. intros h. now exists a, []. Qed.

Lemma always_returns_bind {A B} (m : M A) (k : A -> M B) :
  always_returns m -> (forall a, always_returns (k a)) -> always_returns (bind m k).
Proof.
  intros Hm Hk h. unfold bind. destruct (Hm h) as (a & n1 & ->).
  destruct (Hk a (h ++ n1)) as (b & n2 & ->). now exists b, (n1 ++ n2).
Qed.

End MonadFacts.


(** Symbolic execution: unfold the monad, split on the next answer of the
    environment or on the next condition, repeat. *)
Ltac unfold_monad :=
  cbv [try_catch bind perform ret throw out_of_fuel].

Ltac next_answer :=
  match goal with
  | |- context [match respond ?E ?h ?T ?a with _ => _ end] =>
      destruct (respond E h T a) eqn:?
  | |- context [if ?b then _ else _] => destruct b eqn:?
  end.

Ltac run_all := unfold_monad; repeat (next_answer; unfold_monad).

(** ** The login-state detector *)

Section LoginStateFacts.
Context {number : Type}.
Variable E : Env number.

Lemma isVisible_or_false_emits (P : event number -> bool) sel t :
  (forall o, P (Ev (IsVisible sel t) o) = true) ->
  emits P (isVisible_or_false E sel t).
Proof.
  intros HP. apply emits_try_catch; [now apply emits_perform | intros; apply emits_ret].
Qed.

Lemma any_indicator_visible_emits (P : event number -> bool) indicators :
  (forall sel t o, P (Ev (IsVisible sel t) o) = true) ->
  emits P (any_indicator_visible E indicators).
Proof.
  intros HP. induction indicators as [|i rest IH]; simpl.
  - apply emits_ret.
  - apply emits_bind.
    + apply emits_try_catch; [now apply isVisible_or_false_emits | intros; apply emits_ret].
    + intros [|]; [apply emits_ret | exact IH].
Qed.

Lemma isLoggedIn_emits : emits login_check_event (isLoggedIn E).
Proof.
  unfold isLoggedIn.
  repeat first
    [ apply emits_ret
    | apply any_indicator_visible_emits; reflexivity
    | apply isVisible_or_false_emits; reflexivity
    | apply emits_perform; reflexivity
    | apply emits_try_catch; [|intros ?]
    | apply emits_bind; [|intros ?]
    | match goal with |- emits _ (if ?b then _ else _) => destruct b end ].
Qed.

Lemma isLoggedIn_always_returns : always_returns (isLoggedIn E).
Proof.
  exact (swallow_always_returns _ _ _ isLoggedIn_emits).
Qed.

Lemma misses_followed_sound (b : bool) (n : list (event number)) :
  misses_followed b n = true ->
  forall pre e post selector,
    n = pre ++ e :: post ->
    missed e = Some selector ->
    match next_check selector with
    | Some following =>
        exists e' post', post = e' :: post' /\ looks_up following e' = true
    | None => post = [] /\ b = false
    end.
Proof.
  intros Hn pre. revert n Hn.
  induction pre as [|e0 pre IH]; intros n Hn e post selector -> Hmiss.
  - cbn [app misses_followed] in Hn. rewrite Hmiss in Hn.
    apply andb_true_iff in Hn as [Hn _].
    destruct (next_check selector) as [following|].
    + destruct post as [|e' post']; [discriminate Hn|]. now exists e', post'.
    + destruct post; [|discriminate Hn]. split; [reflexivity|]. now destruct b.
  - cbn [app misses_followed] in Hn. apply andb_true_iff in Hn as [_ Hn].
    exact (IH _ Hn e post selector eq_refl Hmiss).
Qed.

(** C5 (as amended).  [isLoggedIn] always completes with a boolean and
    never raises, whatever the page answers.  When the first wait, the
    reading of the page address, the click on the account menu or the wait
    after it fails, the result is [false].  A failed visibility lookup is
    taken as "not visible" and the remaining checks still run: every
    lookup that saw nothing, because it answered "not visible" or because
    it failed, is followed at once by the lookup of the next check, and
    after the last check the result is [false]. *)
Theorem isLoggedIn_returns_boolean (h : list (event number)) :
  exists b n, isLoggedIn E h = (Ok b, n)
              /\ (existsb failed_outside_lookup n = true -> b = false)
              /\ (forall pre e post selector,
                     n = pre ++ e :: post ->
                     missed e = Some selector ->
                     match next_check selector with
                     | Some following =>
                         exists e' post',
                           post = e' :: post' /\ looks_up following e' = true
                     | None => post = [] /\ b = false
                     end).
Proof.
  unfold isLoggedIn, loggedInIndicators, notLoggedInIndicators.
  cbv [any_indicator_visible isVisible_or_false].
  run_all;
    (eexists; eexists; split; [reflexivity|]; split;
     [ simpl; intros; congruence
     | apply misses_followed_sound; vm_compute; reflexivity ]).
Qed.
End LoginStateFacts.


(** ** The challenge handler *)

Section CaptchaFacts.
Context {number : Type}.
Variable E : Env number.

Lemma polls_app (n1 n2 : list (event number)) : polls (n1 ++ n2) = polls n1 + polls n2.
Proof. unfold polls. rewrite filter_app, length_app. lia. Qed.

Lemma polls_nonneg (n : list (event number)) : 0 <= polls n.
Proof. unfold polls. lia. Qed.

(** The loop, whatever the fuel and the starting value: its calls are
    lookups and sleeps of [checkInterval]; the value it exits with is the
    starting value plus [checkInterval] per completed sleep; every sleep
    was started below the ceiling; fuel runs out only after one completed
    sleep per unit of fuel. *)
Lemma captcha_poll_invariant (fuel : nat) :
  forall t h,
    let (r, n) := captcha_poll E fuel t h in
    forallb poll_event n = true
    /\ match r with
       | Ok t' => t' = t + checkInterval * polls n
                  /\ (polls n = 0 \/ t' - checkInterval < timeout)
       | Throw _ => t + checkInterval * polls n < timeout
       | OutOfFuel => polls n = Z.of_nat fuel
                      /\ (polls n = 0 \/ t + checkInterval * (polls n - 1) < timeout)
       end.
Proof.
  induction fuel as [|fuel IH]; intros t h.
  - simpl. unfold out_of_fuel. repeat split. now left.
  - cbn [captcha_poll]. destruct (t <? timeout) eqn:Hlt.
    + apply Z.ltb_lt in Hlt.
      unfold isVisible_or_false. unfold_monad.
      destruct (respond E h bool (IsVisible captchaPageTitle None)) as [still|m1] eqn:H1;
      match goal with
      | |- context [respond E ?h' bool (IsVisible loginFormLocator None)] =>
          destruct (respond E h' bool (IsVisible loginFormLocator None)) as [form|m2] eqn:H2
      end;
      try destruct still; try destruct form; cbn [negb orb app];
      try (split; [reflexivity | split; [change (polls _) with 0; lia | now left]]).
      all: match goal with
      | |- context [respond ?E' ?h' unit (WaitForTimeout checkInterval)] =>
          destruct (respond E' h' unit (WaitForTimeout checkInterval)) as [u|m3] eqn:H3
      end.
      all: try (split; [reflexivity | change (polls _) with 0; lia]).
      all: match goal with
      | IH' : forall _ _, _ |- context [captcha_poll ?E' ?f ?t' ?h'] =>
          specialize (IH' t' h'); destruct (captcha_poll E' f t' h') as [[t''| |] n'];
          destruct IH' as [Hev Hres]
      end.
      all: (split; [cbn [forallb poll_event andb]; rewrite Z.eqb_refl; exact Hev|]).
      all: match goal with
           | |- context [polls (?e1 :: ?e2 :: ?e3 :: ?n')] =>
               replace (polls (e1 :: e2 :: e3 :: n')) with (1 + polls n')
                 by (unfold polls; cbn [filter completed_poll andb];
                     rewrite Z.eqb_refl; cbn [andb List.length]; lia);
               pose proof (polls_nonneg n')
           end.
      all: unfold checkInterval, timeout in *; try lia.
    + unfold ret. split; [reflexivity|].
      split; [change (polls []) with 0; lia | now left].
Qed.

(** With the fuel it is given, the loop always exits by itself, and it
    exits with [checkInterval] times the number of completed sleeps, at
    most [timeout]. *)
Lemma captcha_poll_exits (h : list (event number)) :
  let (r, n) := captcha_poll E poll_fuel 0 h in
  match r with
  | Ok t' => t' = checkInterval * polls n /\ t' <= timeout
  | Throw _ => checkInterval * polls n < timeout
  | OutOfFuel => False
  end.
Proof.
  pose proof (captcha_poll_invariant poll_fuel 0 h) as H.
  destruct (captcha_poll E poll_fuel 0 h) as [[t'| |] n]; destruct H as [_ H].
  - pose proof (polls_nonneg n). unfold checkInterval, timeout in *. lia.
  - lia.
  - change (Z.of_nat poll_fuel) with 41 in H. unfold checkInterval, timeout in *. lia.
Qed.

(** The waiting phase never runs out of fuel; its completed sleeps add up
    to at most [timeout]; when they reach it the phase raises. *)
Lemma await_captcha_solved_bounded (h : list (event number)) :
  let (r, n) := await_captcha_solved E h in
  r <> OutOfFuel
  /\ checkInterval * polls n <= timeout
  /\ (checkInterval * polls n < timeout
      \/ r = Throw "Failed to handle CAPTCHA: CAPTCHA solving timeout exceeded. Test failed.").
Proof.
  unfold await_captcha_solved. unfold_monad.
  pose proof (captcha_poll_exits h) as H.
  destruct (captcha_poll E poll_fuel 0 h) as [[t'| |] n]; [| |contradiction].
  - destruct H as [Ht Hle]. destruct (t' >=? timeout) eqn:Hge.
    + rewrite !polls_app. change (polls []) with 0. rewrite !Z.add_0_r.
      repeat split; [discriminate | lia | right; reflexivity].
    + rewrite Z.geb_leb in Hge. apply Z.leb_gt in Hge.
      match goal with
      | |- context [respond E ?h' unit (WaitForTimeout 2000)] =>
          destruct (respond E h' unit (WaitForTimeout 2000))
      end;
      rewrite ?polls_app;
      repeat match goal with
             | |- context [polls [?e]] => change (polls [e]) with 0
             end;
      change (polls []) with 0; rewrite ?Z.add_0_r;
      (repeat split; [discriminate | lia | left; lia]).
  - rewrite !polls_app. change (polls []) with 0. rewrite !Z.add_0_r.
    repeat split; [discriminate | lia | left; lia].
Qed.

Ltac next_handler_step :=
  match goal with
  | |- context [await_captcha_solved ?E' ?h'] =>
      let H := fresh "Hwait" in
      pose proof (await_captcha_solved_bounded h') as H;
      destruct (await_captcha_solved E' h') as [[[]| |] ?];
      destruct H as (? & ? & ?)
  | |- context [match respond ?E' ?h' ?T ?a with _ => _ end] =>
      destruct (respond E' h' T a) eqn:?
  | |- context [if ?b then _ else _] => destruct b eqn:?
  end.

(** The same bound for the whole handler: besides the waiting phase it
    makes no sleep of [checkInterval], and in a headless run none at all. *)
Lemma handlePossibleCaptcha_bounded (this : BasePage) (options : CaptchaOptions)
    (h : list (event number)) :
  let (r, n) := handlePossibleCaptcha E this options h in
  r <> OutOfFuel
  /\ checkInterval * polls n <= timeout
  /\ (checkInterval * polls n < timeout
      \/ r = Throw "Failed to handle CAPTCHA: CAPTCHA solving timeout exceeded. Test failed.")
  /\ (headless E = true -> polls n = 0).
Proof.
  unfold handlePossibleCaptcha, navigate, isVisible_or_false.
  unfold_monad. repeat (next_handler_step; unfold_monad).
  all: try contradiction.
  all: rewrite ?polls_app;
    repeat match goal with
           | |- context [polls [?e]] => change (polls [e]) with 0
           end;
    change (polls (@nil (event number))) with 0; rewrite ?Z.add_0_r, ?Z.add_0_l.
  all: unfold checkInterval, timeout in *.
  all: split; [discriminate|]; split; [lia|]; split;
    [ | intros; first [reflexivity | discriminate] ].
  all: first
    [ left; lia
    | match goal with
      | H : _ \/ _ |- _ => destruct H as [H|H]; [left; lia | first [right; exact H | discriminate H]]
      end ].
Qed.

(** C4. The waiting phase terminates within its ceiling.  The loop sleeps
    [checkInterval] = 3000 ms at a time and does nothing else but look
    up visibility; the elapsed time it accumulates is the starting value
    plus 3000 ms per completed sleep, so it grows strictly with every
    iteration; the phase never runs out of fuel; the completed sleeps add
    up to at most [timeout] = 120000 ms; and when they reach it the phase,
    and with it the handler, raises the timeout error instead of polling
    again. *)
Theorem captcha_wait_within_ceiling (h : list (event number)) :
  checkInterval = 3000 /\ timeout = 120000
  /\ (forall fuel t,
        let (r, n) := captcha_poll E fuel t h in
        forallb poll_event n = true
        /\ match r with
           | Ok t' => t' = t + checkInterval * polls n
           | _ => True
           end)
  /\ (let (r, n) := await_captcha_solved E h in
      r <> OutOfFuel
      /\ checkInterval * polls n <= timeout
      /\ (checkInterval * polls n < timeout
          \/ r = Throw "Failed to handle CAPTCHA: CAPTCHA solving timeout exceeded. Test failed."))
  /\ (forall this options,
        let (r, n) := handlePossibleCaptcha E this options h in
        r <> OutOfFuel
        /\ checkInterval * polls n <= timeout
        /\ (checkInterval * polls n < timeout
            \/ r = Throw "Failed to handle CAPTCHA: CAPTCHA solving timeout exceeded. Test failed.")).
Proof.
  split; [reflexivity|]. split; [reflexivity|]. split; [|split].
  - intros fuel t. pose proof (captcha_poll_invariant fuel t h) as H.
    destruct (captcha_poll E fuel t h) as [[t'| |] n]; destruct H as [Hev H];
      (split; [exact Hev|]); try exact I. apply H.
  - apply await_captcha_solved_bounded.
  - intros this options. pose proof (handlePossibleCaptcha_bounded this options h) as H.
    destruct (handlePossibleCaptcha E this options h) as [r n].
    destruct H as (H1 & H2 & H3 & _). now repeat split.
Qed.

(** In a headless run the checkbox interstitial is fatal at once: the
    handler raises, and the detection is the last call it made. *)
Lemma headless_checkbox_fails_fast (this : BasePage) (options : CaptchaOptions)
    (h : list (event number)) :
  headless E = true ->
  let (r, n) := handlePossibleCaptcha E this options h in
  existsb checkbox_challenge_detected n = true ->
  r = Throw "CAPTCHA detected in headless mode. Test cannot proceed automatically."
  /\ exists d, checkbox_challenge_detected d = true /\ n = removelast n ++ [d].
Proof.
  intros Hheadless. unfold handlePossibleCaptcha, navigate, isVisible_or_false.
  rewrite Hheadless.
  run_all; intros Hseen; try (vm_compute in Hseen; discriminate Hseen);
    (split; [reflexivity|]); eexists; (split; [|cbn; reflexivity]); reflexivity.
Qed.
End CaptchaFacts.


(** ** Session snapshots and fixtures *)

Section FixtureFacts.
Context {number : Type}.
Variable E : Env number.

(** A file that cannot be accessed, cannot be read or is no JSON is
    reported as invalid, with the boolean [false]. *)
Lemma isStateFileValid_unusable_file (filePath : string) (h : list (event number)) :
  (forall m, respond E h unit (FsAccess filePath) = Rejected m ->
     fst (isStateFileValid E filePath h) = Ok (VBool false))
  /\ (forall u m,
        respond E h unit (FsAccess filePath) = Resolved u ->
        respond E (h ++ [Ev (FsAccess filePath) (Resolved u)]) string (FsReadFile filePath)
          = Rejected m ->
        fst (isStateFileValid E filePath h) = Ok (VBool false))
  /\ (forall u text,
        respond E h unit (FsAccess filePath) = Resolved u ->
        respond E (h ++ [Ev (FsAccess filePath) (Resolved u)]) string (FsReadFile filePath)
          = Resolved text ->
        JSON_parse E text = None ->
        fst (isStateFileValid E filePath h) = Ok (VBool false)).
Proof.
  unfold isStateFileValid, parse. repeat split.
  - intros m H. unfold_monad. now rewrite H.
  - intros u m H1 H2. unfold_monad. rewrite H1, H2. reflexivity.
  - intros u text H1 H2 H3. unfold_monad. rewrite H1, H2, H3. reflexivity.
Qed.

(** A snapshot with a [cookies] array is valid exactly when the array is
    not empty, and the answer is then a boolean. *)
Lemma isStateFileValid_cookies_array (filePath : string) (h : list (event number))
    u text state items :
  respond E h unit (FsAccess filePath) = Resolved u ->
  respond E (h ++ [Ev (FsAccess filePath) (Resolved u)]) string (FsReadFile filePath)
    = Resolved text ->
  JSON_parse E text = Some state ->
  cookies_array state = Some items ->
  fst (isStateFileValid E filePath h)
  = Ok (VBool (match items with [] => false | _ :: _ => true end)).
Proof.
  intros H1 H2 H3 H4. unfold isStateFileValid, parse. unfold_monad.
  rewrite H1, H2, H3.
  destruct state as [ | | | | | |fields| ]; try discriminate H4.
  unfold cookies_array in H4. unfold has_cookies, get, truthy. unfold_monad.
  destruct (own_property "cookies" fields) as [[ | | | | |items'| | ]|]; try discriminate H4.
  injection H4 as ->. cbn. now destruct items.
Qed.

(** A snapshot object without a [cookies] member is answered with
    [undefined], not with [false]. *)
Lemma isStateFileValid_without_cookies (filePath : string) (h : list (event number))
    u text fields :
  respond E h unit (FsAccess filePath) = Resolved u ->
  respond E (h ++ [Ev (FsAccess filePath) (Resolved u)]) string (FsReadFile filePath)
    = Resolved text ->
  JSON_parse E text = Some (VObj fields) ->
  own_property "cookies" fields = None ->
  fst (isStateFileValid E filePath h) = Ok VUndefined.
Proof.
  intros H1 H2 H3 H4. unfold isStateFileValid, parse. unfold_monad.
  rewrite H1, H2, H3. unfold has_cookies, get, truthy. unfold_monad.
  rewrite H4. reflexivity.
Qed.

Lemma list_ascii_of_string_append (s1 s2 : string) :
  list_ascii_of_string (s1 ++ s2)%string
  = list_ascii_of_string s1 ++ list_ascii_of_string s2.
Proof. induction s1 as [|c s1 IH]; simpl; [reflexivity | now rewrite IH]. Qed.

(** Both error messages name the key that was looked up. *)
Lemma not_found_messages_name_the_key (key : string) :
  str_includes (testData_not_found key) key = true
  /\ str_includes (credentials_not_found key) key = true.
Proof.
  unfold str_includes, testData_not_found, credentials_not_found, quoted.
  split; apply includes_substring; rewrite !list_ascii_of_string_append.
  - exists (list_ascii_of_string "Test data for type " ++ list_ascii_of_string dquote),
           (list_ascii_of_string dquote ++ list_ascii_of_string " not found in data file").
    now rewrite <- !app_assoc.
  - exists (list_ascii_of_string "Credentials for user type " ++ list_ascii_of_string dquote),
           (list_ascii_of_string dquote
              ++ list_ascii_of_string " not found in credentials file").
    now rewrite <- !app_assoc.
Qed.

(** What [data[key]] is for a key the object does not own. *)
Lemma get_unowned (fields : list (string * value number)) (key : string)
    (h : list (event number)) :
  own_property key fields = None ->
  get E (VObj fields) key h
  = (Ok (if existsb (String.eqb key) Object_prototype then VNative key else VUndefined), []).
Proof. intros H. unfold get, ret. now rewrite H. Qed.

(** [getTestData] on a key that the fixture object does not own: a
    "not found" error, unless the key names a member every object
    inherits, which is then returned. *)
Lemma getTestData_unowned_key (dataType : string) (h : list (event number)) fields n :
  loadTestData E testDataPath h = (Ok (VObj fields), n) ->
  own_property dataType fields = None ->
  getTestData E dataType h
  = (if existsb (String.eqb dataType) Object_prototype
     then Ok (VNative dataType)
     else Throw (testData_not_found dataType),
     n).
Proof.
  intros Hload Hkey. unfold getTestData, get. unfold_monad.
  rewrite Hload, Hkey.
  destruct (existsb (String.eqb dataType) Object_prototype);
    cbn [truthy negb]; now rewrite ?app_nil_r.
Qed.

(** The same for [getCredentials] and the [users] object. *)
Lemma getCredentials_unowned_key (userType : string) (h : list (event number))
    fields users n :
  loadTestData E credentialsPath h = (Ok (VObj fields), n) ->
  own_property "users" fields = Some (VObj users) ->
  own_property userType users = None ->
  getCredentials E userType h
  = (if existsb (String.eqb userType) Object_prototype
     then Ok (VNative userType)
     else Throw (credentials_not_found userType),
     n).
Proof.
  intros Hload Husers Hkey. unfold getCredentials, get. unfold_monad.
  rewrite Hload, Husers. cbn [truthy negb]. rewrite Hkey.
  destruct (existsb (String.eqb userType) Object_prototype);
    cbn [truthy negb]; now rewrite ?app_nil_r.
Qed.
End FixtureFacts.


(** ** The login orchestration *)

Section OrchestrationFacts.
Context {number : Type}.
Variable E : Env number.

Local Abbreviation event := (event number).

Ltac emits_auto :=
  repeat first
    [ apply emits_ret
    | apply emits_throw
    | apply emits_perform; reflexivity
    | apply isVisible_or_false_emits; reflexivity
    | apply emits_try_catch; [|intros ?]
    | apply emits_bind; [|intros ?]
    | match goal with
      | |- emits _ (if ?b then _ else _) => destruct b
      | |- emits _ (match ?x with _ => _ end) => destruct x
      end ].

Lemma get_emits (P : event -> bool) (receiver : value number) (key : string) :
  emits P (get E receiver key).
Proof. unfold get. destruct receiver; emits_auto. Qed.

Lemma length_gt_zero_emits (P : event -> bool) (c : value number) :
  emits P (length_gt_zero E c).
Proof. unfold length_gt_zero. destruct c; emits_auto. Qed.

Lemma has_cookies_emits (P : event -> bool) (state : value number) :
  emits P (has_cookies E state).
Proof.
  unfold has_cookies. destruct (truthy E state); [|apply emits_ret].
  apply emits_bind; [apply get_emits | intros c].
  destruct (truthy E c); [apply length_gt_zero_emits | apply emits_ret].
Qed.

Lemma parse_emits (P : event -> bool) (text : string) : emits P (parse E text).
Proof. unfold parse. emits_auto. Qed.

Lemma captcha_poll_emits (P : event -> bool) :
  (forall sel t o, P (Ev (IsVisible sel t) o) = true) ->
  (forall ms o, P (Ev (WaitForTimeout ms) o) = true) ->
  forall f t, timeout - t <= Z.of_nat f * checkInterval ->
              emits P (captcha_poll E (S f) t).
Proof.
  intros Hvis Hwait. induction f as [|f IH]; intros t Hfuel.
  - cbn [captcha_poll]. destruct (t <? timeout) eqn:Hlt; [|apply emits_ret].
    apply Z.ltb_lt in Hlt. lia.
  - change (captcha_poll E (S (S f)) t) with
      (if t <? timeout then
         bind (isVisible_or_false E captchaPageTitle None) (fun stillOnCaptchaPage =>
         bind (isVisible_or_false E loginFormLocator None) (fun loginFormVisible =>
         if negb stillOnCaptchaPage || loginFormVisible then ret t
         else bind (perform E (WaitForTimeout checkInterval))
                   (fun _ => captcha_poll E (S f) (t + checkInterval))))
       else ret t).
    destruct (t <? timeout) eqn:Hlt; [|apply emits_ret].
    apply emits_bind; [now apply isVisible_or_false_emits | intros still].
    apply emits_bind; [now apply isVisible_or_false_emits | intros form].
    destruct (negb still || form); [apply emits_ret|].
    apply emits_bind; [now apply emits_perform | intros _].
    apply IH. unfold checkInterval in *. lia.
Qed.

Lemma await_captcha_solved_emits (P : event -> bool) :
  (forall sel t o, P (Ev (IsVisible sel t) o) = true) ->
  (forall ms o, P (Ev (WaitForTimeout ms) o) = true) ->
  emits P (await_captcha_solved E).
Proof.
  intros Hvis Hwait. unfold await_captcha_solved.
  apply emits_try_catch; [|intros; apply emits_throw].
  apply emits_bind.
  - apply captcha_poll_emits; try assumption. vm_compute. discriminate.
  - intros t. destruct (t >=? timeout); [apply emits_throw | now apply emits_perform].
Qed.

(** The handler as the login page calls it: return path [account/login]
    on the login domain. *)
Lemma handlePossibleCaptcha_emits (options : CaptchaOptions) :
  options = no_options \/ options = to_login_page ->
  emits manual_phase_event (handlePossibleCaptcha E new_LoginPage options).
Proof.
  intros [-> | ->]; unfold handlePossibleCaptcha; cbn [returnPath useMainSite no_options to_login_page];
    emits_auto;
    try (apply await_captcha_solved_emits; reflexivity).
Qed.

Lemma navigateToLogin_emits :
  emits manual_phase_event (navigateToLogin E new_LoginPage).
Proof.
  unfold navigateToLogin, acceptCookiesIfVisible.
  apply emits_bind; [apply emits_perform; reflexivity | intros _].
  apply emits_bind; [emits_auto | intros _].
  apply handlePossibleCaptcha_emits. now left.
Qed.

Lemma login_check_is_manual_phase (e : event) :
  login_check_event e = true -> manual_phase_event e = true.
Proof. destruct e as [T a o]. destruct a; try discriminate; reflexivity. Qed.

Lemma login_check_is_before_manual_login (e : event) :
  login_check_event e = true -> before_manual_login e = true.
Proof.
  destruct e as [T a o]. unfold before_manual_login.
  destruct a; try discriminate; try reflexivity.
  cbn. now intros ->.
Qed.

Lemma LoginPage_login_emits (email password : value number) :
  emits manual_phase_event (LoginPage_login E new_LoginPage email password).
Proof.
  unfold LoginPage_login.
  repeat first
    [ apply emits_ret
    | apply (emits_weaken _ _ _ login_check_is_manual_phase), isLoggedIn_emits
    | apply navigateToLogin_emits
    | apply handlePossibleCaptcha_emits; now right
    | apply emits_perform; reflexivity
    | apply isVisible_or_false_emits; reflexivity
    | apply emits_try_catch; [|intros ?]
    | apply emits_bind; [|intros ?]
    | match goal with |- emits _ (if ?b then _ else _) => destruct b end ].
Qed.

Lemma loadTestData_emits (P : event -> bool) (filePath : string) :
  (forall o, P (Ev (FsReadFile filePath) o) = true) ->
  emits P (loadTestData E filePath).
Proof.
  intros HP. unfold loadTestData.
  apply emits_try_catch; [|intros; apply emits_ret].
  apply emits_bind; [now apply emits_perform | intros; apply parse_emits].
Qed.

Lemma getCredentials_emits (userType : string) :
  emits manual_phase_event (getCredentials E userType).
Proof.
  unfold getCredentials.
  repeat first
    [ apply emits_ret
    | apply emits_throw
    | apply get_emits
    | apply loadTestData_emits; reflexivity
    | apply emits_bind; [|intros ?]
    | match goal with |- emits _ (if ?b then _ else _) => destruct b end ].
Qed.

Lemma login_emits (credentials : value number) :
  emits manual_phase_event (login E credentials).
Proof.
  unfold login.
  apply emits_bind; [apply navigateToLogin_emits | intros _].
  apply emits_bind; [apply get_emits | intros email].
  apply emits_bind; [apply get_emits | intros password].
  apply LoginPage_login_emits.
Qed.

Lemma manual_login_emits : emits manual_phase_event (manual_login E).
Proof.
  unfold manual_login, manual_login_body.
  apply emits_try_catch; [|intros; apply emits_ret].
  apply emits_bind; [apply getCredentials_emits | intros credentials].
  apply emits_bind; [apply login_emits | intros [|]; apply emits_ret].
Qed.

Lemma manual_login_always_returns : always_returns (manual_login E).
Proof. exact (swallow_always_returns _ _ _ manual_login_emits). Qed.

Lemma login_with_stored_cookies_emits :
  emits before_manual_login (login_with_stored_cookies E).
Proof.
  unfold login_with_stored_cookies, login_with_stored_cookies_body.
  repeat first
    [ apply emits_ret
    | apply (emits_weaken _ _ _ login_check_is_before_manual_login), isLoggedIn_emits
    | apply parse_emits
    | apply has_cookies_emits
    | apply get_emits
    | apply emits_perform; reflexivity
    | apply emits_try_catch; [|intros ?]
    | apply emits_bind; [|intros ?]
    | match goal with |- emits _ (if ?b then _ else _) => destruct b end ].
Qed.

Lemma login_with_stored_cookies_always_returns :
  always_returns (login_with_stored_cookies E).
Proof. exact (swallow_always_returns _ _ _ login_with_stored_cookies_emits). Qed.

Lemma ensureLoggedIn_always_returns : always_returns (ensureLoggedIn E).
Proof.
  unfold ensureLoggedIn.
  apply always_returns_bind; [apply isLoggedIn_always_returns | intros [|]].
  - apply always_returns_ret.
  - apply always_returns_bind; [apply login_with_stored_cookies_always_returns|].
    intros [b|]; [apply always_returns_ret | apply manual_login_always_returns].
Qed.

Lemma pure_ret {A} (a : A) : pure (ret (number := number) a).
Proof. intros h. reflexivity. Qed.

Lemma pure_throw {A} (msg : string) : pure (throw (number := number) (A := A) msg).
Proof. intros h. reflexivity. Qed.

Lemma pure_bind {A B} (m : M number A) (k : A -> M number B) :
  pure m -> (forall a, pure (k a)) -> pure (bind m k).
Proof.
  intros Hm Hk h. unfold bind.
  pose proof (Hm h) as Hh. pose proof (Hm []) as H0.
  destruct (m []) as [r0 n0]. cbn [fst] in *. injection H0 as ->.
  rewrite Hh. destruct r0 as [a| |]; try reflexivity.
  rewrite (Hk a (h ++ [])), (Hk a ([] ++ [])). reflexivity.
Qed.

Lemma get_pure (receiver : value number) (key : string) : pure (get E receiver key).
Proof. unfold get. destruct receiver; first [apply pure_ret | apply pure_throw]. Qed.

Lemma length_gt_zero_pure (c : value number) : pure (length_gt_zero E c).
Proof.
  unfold length_gt_zero.
  destruct c; try destruct (foreign_length_gt_zero E _);
    first [apply pure_ret | apply pure_throw].
Qed.

Lemma has_cookies_pure (state : value number) : pure (has_cookies E state).
Proof.
  unfold has_cookies. destruct (truthy E state); [|apply pure_ret].
  apply pure_bind; [apply get_pure | intros c].
  destruct (truthy E c); [apply length_gt_zero_pure | apply pure_ret].
Qed.


Ltac next_step :=
  match goal with
  | |- context [match respond ?E' ?h ?T ?a with _ => _ end] =>
      destruct (respond E' h T a) eqn:?
  | |- context [match JSON_parse ?E' ?t with _ => _ end] =>
      destruct (JSON_parse E' t) eqn:?
  | |- context [has_cookies ?E' ?s ?h] =>
      rewrite (has_cookies_pure s h);
      destruct (fst (has_cookies E' s [])) as [?| |] eqn:?;
      [ | | now destruct (has_cookies_emits any_event s []) ]
  | |- context [get ?E' ?s ?k ?h] =>
      rewrite (get_pure s k h);
      destruct (fst (get E' s k [])) as [?| |] eqn:?;
      [ | | now destruct (get_emits any_event s k []) ]
  | |- context [isLoggedIn ?E' ?h] =>
      let H := fresh "Hrecheck" in
      destruct (isLoggedIn_always_returns E' h) as (? & ? & H); rewrite H
  | |- context [if ?b then _ else _] => destruct b eqn:?
  end.


(** What the first [try] block hands on.  It returns from the function
    only with [true], and only after the home page was loaded and the
    recheck reported a logged-in session.  When it falls through although
    the home page was loaded, the recheck ran and reported [false]. *)
Lemma stored_cookies_recheck (h : list event) :
  let (r, n) := login_with_stored_cookies E h in
  match r with
  | Ok (Some b) =>
      b = true
      /\ exists pre n_re, n = pre ++ n_re
                          /\ existsb home_page_loaded pre = true
                          /\ isLoggedIn E (h ++ pre) = (Ok true, n_re)
  | Ok None =>
      existsb home_page_loaded n = true ->
      exists pre n_re, n = pre ++ n_re /\ isLoggedIn E (h ++ pre) = (Ok false, n_re)
  | _ => False
  end.
Proof.
  unfold login_with_stored_cookies, login_with_stored_cookies_body, parse.
  unfold_monad. repeat (next_step; unfold_monad).
  all: try (intros Hloaded; cbn in Hloaded; discriminate Hloaded).
  all: cbn [app] in *; rewrite ?app_nil_r in *; repeat rewrite <- app_assoc in *;
    cbn [app] in *.
  - split; [reflexivity|].
    match goal with
    | H : isLoggedIn E (h ++ ?pre) = (_, ?n_re) |- _ => exists pre, n_re
    end.
    repeat split; assumption.
  - intros _.
    match goal with
    | H : isLoggedIn E (h ++ ?pre) = (_, ?n_re) |- _ => exists pre, n_re
    end.
    subst. split; [reflexivity | assumption].
Qed.

Lemma forallb_excludes (P Q : event -> bool) (l : list event) :
  (forall e, P e = true -> Q e = false) ->
  forallb P l = true -> existsb Q l = false.
Proof.
  intros HPQ. induction l as [|e l IH]; [reflexivity|].
  cbn. intros H. apply andb_true_iff in H as [He Hl].
  now rewrite (HPQ e He), (IH Hl).
Qed.







(** C8 (as amended).  [ensureLoggedIn] always completes with a boolean
    and never raises.  An error while the stored state is loaded or the
    cookies are applied is caught and the manual login is tried next: the
    result is then whatever the manual login gives.  An error in the
    credential lookup or in the manual login is caught and the result is
    [false]. *)
Theorem ensureLoggedIn_never_raises (h : list event) :
  exists b n,
    ensureLoggedIn E h = (Ok b, n)
    /\ (forall n1 msg n2,
          isLoggedIn E h = (Ok false, n1) ->
          login_with_stored_cookies_body E (h ++ n1) = (Throw msg, n2) ->
          exists n3, manual_login E ((h ++ n1) ++ n2) = (Ok b, n3)
                     /\ n = n1 ++ n2 ++ n3)
    /\ (forall n1 n2 msg n3,
          isLoggedIn E h = (Ok false, n1) ->
          login_with_stored_cookies E (h ++ n1) = (Ok None, n2) ->
          manual_login_body E ((h ++ n1) ++ n2) = (Throw msg, n3) ->
          b = false).
Proof.
  destruct (ensureLoggedIn_always_returns h) as (b & n & Hrun).
  exists b, n. split; [assumption|].
  unfold ensureLoggedIn, bind in Hrun. split.
  - intros n1 msg n2 H1 H2. rewrite H1 in Hrun.
    unfold login_with_stored_cookies, try_catch in Hrun. rewrite H2 in Hrun.
    cbn [ret] in Hrun. rewrite !app_nil_r in Hrun.
    destruct (manual_login_always_returns ((h ++ n1) ++ n2)) as (b' & n3 & H3).
    rewrite H3 in Hrun. injection Hrun as <- <-. now exists n3.
  - intros n1 n2 msg n3 H1 H2 Hbody. rewrite H1, H2 in Hrun.
    unfold manual_login, try_catch in Hrun. rewrite Hbody in Hrun.
    cbn [ret] in Hrun. now injection Hrun as <- _.
Qed.
End OrchestrationFacts.

(** ** Evaluations on concrete environments *)

Module ScenarioFacts.
Import Scenarios.

(** C5, the claim as stated fails: on [account_text_ambiguous] an
    internal lookup fails and the detector still answers [true]. *)
Lemma isLoggedIn_true_despite_failed_lookup :
  exists b n, isLoggedIn account_text_ambiguous [] = (Ok b, n)
              /\ existsb failed n = true
              /\ b = true.
Proof. eexists; eexists. vm_compute. repeat split. Qed.

Lemma isLoggedIn_returns_boolean_witness :
  (* a click that fails: the answer is false *)
  (exists b n, isLoggedIn account_menu_click_fails [] = (Ok b, n)
               /\ existsb failed_outside_lookup n = true
               /\ b = false)
  (* a lookup that fails: the next check runs *)
  /\ (exists b pre message post next post',
        isLoggedIn account_text_ambiguous []
        = (Ok b, pre ++ Ev (IsVisible "text=Account" (Some 1000)) (Rejected message) :: post)
        /\ post = next :: post'
        /\ looks_up accountMenu next = true).
Proof.
  split.
  - destruct (isLoggedIn_returns_boolean account_menu_click_fails [])
      as (b & n & Hrun & Hfalse & _).
    exists b, n. vm_compute in Hrun. injection Hrun as Hb Hn.
    assert (Hfailed : existsb failed_outside_lookup n = true)
      by (rewrite <- Hn; vm_compute; reflexivity).
    repeat split; [now rewrite <- Hb, <- Hn | assumption | now apply Hfalse].
  - destruct (isLoggedIn_returns_boolean account_text_ambiguous [])
      as (b & n & Hrun & _ & Hnext).
    assert (Hn : exists pre post,
               n = pre ++ Ev (IsVisible "text=Account" (Some 1000))
                             (Rejected "strict mode violation: locator resolved to 2 elements")
                         :: post).
    { vm_compute in Hrun. injection Hrun as _ <-.
      eexists [_; _; _]. eexists. reflexivity. }
    destruct Hn as (pre & post & Hn).
    pose proof (Hnext pre _ post "text=Account" Hn eq_refl) as H.
    assert (Hfollowing : next_check "text=Account" = Some accountMenu) by reflexivity.
    rewrite Hfollowing in H. destruct H as (next & post' & Hpost & Hlooks).
    exists b, pre, "strict mode violation: locator resolved to 2 elements", post, next, post'.
    rewrite <- Hn. exact (conj Hrun (conj Hpost Hlooks)).
Defined.


(** C4 on a run: HEADLESS=false and an interstitial that never clears.
    The handler sleeps forty times three seconds and then raises. *)
Lemma never_solved_times_out :
  exists n,
    handlePossibleCaptcha headed_challenge_never_solved new_LoginPage no_options []
    = (Throw "Failed to handle CAPTCHA: CAPTCHA solving timeout exceeded. Test failed.", n)
    /\ polls n = 40.
Proof. eexists. vm_compute. split; reflexivity. Qed.

(** C3, the failing run.  HEADLESS is unset, so the run is headless; the
    image-selection challenge is detected; the handler then starts the
    two-minute wait for the challenge to go away and, when that wait
    ends, completes without raising anything. *)
Lemma headless_image_challenge_is_waited_for :
  headless headless_image_challenge = true
  /\ handlePossibleCaptcha headless_image_challenge new_LoginPage no_options []
     = (Ok tt,
        [ Ev (IsVisible accessDeniedText (Some 3000)) (Resolved false);
          Ev (IsVisible captchaPageTitle (Some 3000)) (Resolved false);
          Ev (IsVisible imageSelectLocator (Some 2000)) (Resolved true);
          Ev (WaitImageChallengeGone 120000) (Resolved tt);
          Ev (WaitForTimeout 2000) (Resolved tt);
          Ev PageUrl (Resolved "https://login.funda.nl/account/login") ]).
Proof. split; vm_compute; reflexivity. Qed.

(** The sibling branch has the guard: on the checkbox interstitial the
    same headless run raises at once, the detection being its last call. *)
Lemma headless_checkbox_challenge_fails_fast :
  handlePossibleCaptcha headless_checkbox_challenge new_LoginPage no_options []
  = (Throw "CAPTCHA detected in headless mode. Test cannot proceed automatically.",
     [ Ev (IsVisible accessDeniedText (Some 3000)) (Resolved false);
       Ev (IsVisible captchaPageTitle (Some 3000)) (Resolved true) ]).
Proof. vm_compute. reflexivity. Qed.

(** C1, the failing input: a state file holding [{}].  The parsed content
    has no [cookies] array, and the check answers [undefined] where a
    boolean [false] is promised. *)
Lemma isStateFileValid_empty_object_is_undefined :
  isStateFileValid state_file_empty_object storageStatePath []
  = (Ok VUndefined,
     [ Ev (FsAccess storageStatePath) (Resolved tt);
       Ev (FsReadFile storageStatePath) (Resolved text_empty_object) ]).
Proof. vm_compute. reflexivity. Qed.

(** The three examples of the specification. *)
Lemma isStateFileValid_examples :
  fst (isStateFileValid state_file_one_cookie storageStatePath []) = Ok (VBool true)
  /\ fst (isStateFileValid state_file_no_cookie storageStatePath []) = Ok (VBool false)
  /\ fst (isStateFileValid account_text_ambiguous storageStatePath []) = Ok (VBool false).
Proof. repeat split; vm_compute; reflexivity. Qed.

(** C6, the failing inputs: keys that the fixture objects do not hold but
    that every JavaScript object inherits.  No error is raised; the
    inherited member comes back. *)
Lemma fixture_lookup_of_inherited_name :
  getTestData fixture_files "toString" []
  = (Ok (VNative "toString"), [Ev (FsReadFile testDataPath) (Resolved text_test_data)])
  /\ getCredentials fixture_files "constructor" []
     = (Ok (VNative "constructor"),
        [Ev (FsReadFile credentialsPath) (Resolved text_credentials)]).
Proof. split; vm_compute; reflexivity. Qed.

(** An ordinary unknown key is refused, and a known one is served. *)
Lemma fixture_lookup_examples :
  fst (getTestData fixture_files "filters" []) = Throw (testData_not_found "filters")
  /\ fst (getCredentials fixture_files "admin" []) = Throw (credentials_not_found "admin")
  /\ fst (getTestData fixture_files "search" [])
     = Ok (VObj [("location", VStr "Amsterdam")])
  /\ fst (getCredentials fixture_files "testUser" [])
     = Ok (VObj [("email", VStr "e"); ("password", VStr "p")]).
Proof. repeat split; vm_compute; reflexivity. Qed.

(** C7 on a run: the first check fails, the stored cookie is applied, the
    recheck succeeds, and the manual login is never started. *)
Lemma stored_cookie_run :
  ensureLoggedIn stored_cookie_still_good []
  = (Ok true,
     [ Ev PageUrl (Resolved "https://login.funda.nl/account/login");
       Ev (WaitForTimeout 1000) (Resolved tt);
       Ev PageUrl (Resolved "https://login.funda.nl/account/login");
       Ev (IsVisible "text=Account" (Some 1000)) (Resolved false);
       Ev (IsVisible accountMenu (Some 1000)) (Resolved false);
       Ev (IsVisible loginForm_emailInput (Some 1000)) (Resolved false);
       Ev (IsVisible loginForm_passwordInput (Some 1000)) (Resolved false);
       Ev (IsVisible loginForm_loginButton (Some 1000)) (Resolved false);
       Ev (FsAccess storageStatePath) (Resolved tt);
       Ev (FsReadFile storageStatePath) (Resolved text_one_cookie);
       Ev (AddCookies (VArr [VObj [("name", VStr "a"); ("value", VStr "b")]])) (Resolved tt);
       Ev (PageGoto "https://www.funda.nl") (Resolved tt);
       Ev PageUrl (Resolved "https://www.funda.nl/");
       Ev (WaitForTimeout 1000) (Resolved tt);
       Ev PageUrl (Resolved "https://www.funda.nl/") ]).
Proof. vm_compute. reflexivity. Qed.




(** C8, the claim as stated fails: on a first run the loading of the
    state file fails, and the function still returns [true], through the
    manual login. *)
Lemma state_file_error_yet_true :
  exists n,
    ensureLoggedIn first_run_login_succeeds [] = (Ok true, n)
    /\ existsb (fun e => failed e && reads_state_file e) n = true.
Proof. eexists. vm_compute. split; reflexivity. Qed.

Lemma ensureLoggedIn_never_raises_witness :
  exists b n,
    ensureLoggedIn nothing_on_disk [] = (Ok b, n)
    /\ b = false
    /\ exists n1 n2 n3,
         isLoggedIn nothing_on_disk [] = (Ok false, n1)
         /\ manual_login nothing_on_disk (([] ++ n1) ++ n2) = (Ok b, n3)
         /\ n = n1 ++ n2 ++ n3.
Proof.
  destruct (ensureLoggedIn_never_raises nothing_on_disk [])
    as (b & n & Hrun & Hfallback & Hfalse).
  exists b, n. split; [exact Hrun|]. split.
  - eapply Hfalse; vm_compute; reflexivity.
  - destruct (isLoggedIn nothing_on_disk []) as [r1 n1] eqn:Hcheck.
    assert (Hr1 : r1 = Ok false) by (vm_compute in Hcheck; now injection Hcheck as <- _).
    subst r1.
    destruct (login_with_stored_cookies_body nothing_on_disk ([] ++ n1))
      as [r2 n2] eqn:Hbody.
    assert (Hr2 : r2 = Throw "ENOENT: no such file or directory")
      by (vm_compute in Hbody; now injection Hbody as <- _).
    subst r2.
    destruct (Hfallback n1 _ n2 eq_refl Hbody) as (n3 & Hmanual & Hn).
    exists n1, n2, n3. exact (conj eq_refl (conj Hmanual Hn)).
Defined.

(** C2 on a run: the query is a literal, case-sensitive substring test. *)
Lemma query_examples :
  let log := {| NetworkMockPage.interceptedRequests := [];
                NetworkMockPage.interceptedUrls :=
                  [ list_ascii_of_string "https://www.funda.nl/";
                    list_ascii_of_string "https://api.funda.nl/search?q=Amsterdam" ];
                NetworkMockPage.isMonitoringRequests := true;
                NetworkMockPage.page_routes := [("**", NetworkMockPage.Monitor)];
                NetworkMockPage.page_response_listeners := 1 |} in
  NetworkMockPage.wasUrlPatternIntercepted ascii_dec (list_ascii_of_string "search") log = true
  /\ NetworkMockPage.wasUrlPatternIntercepted ascii_dec (list_ascii_of_string "Search") log = false
  /\ NetworkMockPage.wasUrlPatternIntercepted ascii_dec (list_ascii_of_string "**/search?*") log = false
  /\ NetworkMockPage.wasUrlPatternIntercepted ascii_dec (list_ascii_of_string "search?q") log = true.
Proof. repeat split; vm_compute; reflexivity. Qed.

Lemma startRequestMonitoring_idempotent_witness :
  let fresh := NetworkMockPage.constructor ascii in
  let st := snd (NetworkMockPage.startRequestMonitoring true fresh) in
  NetworkMockPage.isMonitoringRequests st = true
  /\ NetworkMockPage.startRequestMonitoring false st = (NetworkMockPage.Fulfilled, st)
  /\ NetworkMockPage.startRequestMonitoring true
       (snd (NetworkMockPage.startRequestMonitoring false fresh))
     = (NetworkMockPage.Fulfilled, st)
  /\ NetworkMockPage.monitors_installed
       (snd (NetworkMockPage.setupMockResponse "**/search?*" "[]" true true st)) = 1%nat.
Proof.
  cbn zeta.
  destruct (NetworkMockFacts.startRequestMonitoring_idempotent ascii)
    as (Hagain & Htwice & Hmock & _).
  split; [reflexivity|]. split; [|split].
  - apply Hagain. reflexivity.
  - apply (Htwice (NetworkMockPage.constructor ascii) false true). reflexivity.
  - match goal with
    | |- NetworkMockPage.monitors_installed (snd (_ _ _ _ _ ?st)) = _ =>
        rewrite (proj1 (Hmock st "**/search?*" "[]" true true eq_refl))
    end.
    reflexivity.
Defined.
End ScenarioFacts.

(** ** The network-mock harness over whole runs *)

Module NetworkMockRunFacts.
Import NetworkMockPage NetworkMockRuns.
Section Facts.
Variable char : Type.
Variable char_eq_dec : forall x y : char, {x = y} + {x <> y}.

Local Abbreviation state := (state char).
Local Abbreviation operation := (operation char).

Lemma run_app (ops1 ops2 : list operation) (st : state) :
  run (ops1 ++ ops2) st = run ops2 (run ops1 st).
Proof. unfold run. apply fold_left_app. Qed.

Lemma run_log (ops : list operation) (st : state) :
  interceptedUrls (run ops st) = interceptedUrls st ++ observed ops.
Proof.
  revert st. induction ops as [|op ops IH]; intros st.
  - simpl. now rewrite app_nil_r.
  - change (run (op :: ops) st) with (run ops (step op st)).
    rewrite IH, NetworkMockFacts.step_log.
    change (op :: ops) with ([op] ++ ops).
    now rewrite NetworkMockFacts.observed_app, app_assoc.
Qed.

Lemma some_match_existsb {A} (f : A -> bool) (l : list A) :
  (0 <? List.length (filter f l))%nat = existsb f l.
Proof.
  induction l as [|x l IH]; [reflexivity|].
  simpl. destruct (f x); [reflexivity | exact IH].
Qed.

Lemma query_app (S : list char) (st st' : state) (more : list (url char)) :
  interceptedUrls st' = interceptedUrls st ++ more ->
  wasUrlPatternIntercepted char_eq_dec S st'
  = wasUrlPatternIntercepted char_eq_dec S st
    || existsb (fun u => includes char_eq_dec u S) more.
Proof.
  intros Hlog. unfold wasUrlPatternIntercepted.
  now rewrite Hlog, !some_match_existsb, existsb_app.
Qed.

(** X1. A positive answer of [wasUrlPatternIntercepted] is never lost:
    whatever the harness and the browser do afterwards, the same query
    stays true. *)
Theorem interception_once_seen_stays_seen (S : list char) (st : state)
    (ops : list operation) :
  wasUrlPatternIntercepted char_eq_dec S st = true ->
  wasUrlPatternIntercepted char_eq_dec S (run ops st) = true.
Proof.
  intros H. rewrite (query_app S st (run ops st) (observed ops) (run_log ops st)).
  now rewrite H.
Qed.

(** X2. On an instance used from its constructor on, the query answers
    true exactly when the catch-all observer was handed a request whose
    URL contains the pattern; in particular it is false for every pattern,
    the empty one included, until the observer has seen a request. *)
Theorem interception_reported_iff_observed (S : list char) (ops : list operation) :
  wasUrlPatternIntercepted char_eq_dec S (run ops (constructor char)) = true
  <-> exists u, In u (observed ops) /\ substring_of S u.
Proof.
  rewrite (query_app S (constructor char) _ (observed ops) (run_log ops _)).
  change (wasUrlPatternIntercepted char_eq_dec S (constructor char)) with false.
  rewrite orb_false_l, existsb_exists.
  split; intros (u & Hin & Hsub); exists u; (split; [assumption|]);
    now apply (includes_substring char char_eq_dec).
Qed.

Lemma step_requests (op : operation) (st : state) :
  interceptedRequests (step op st) = interceptedRequests st ++ mocked [op].
Proof.
  destruct op as [ok | p b ok1 ok2 | | pattern | [|body] req]; simpl;
    rewrite ?app_nil_r; try reflexivity.
  - unfold startRequestMonitoring.
    destruct (isMonitoringRequests st), ok; reflexivity.
  - unfold setupMockResponse, startRequestMonitoring.
    destruct (isMonitoringRequests st), ok1, ok2; reflexivity.
Qed.

(** X3. The second log, [interceptedRequests], holds exactly the requests
    that were answered with mock data, in arrival order and with
    repetitions; the observer and the calls of the harness never touch
    it. *)
Theorem interceptedRequests_are_the_mocked_requests (ops : list operation) (st : state) :
  interceptedRequests (run ops st) = interceptedRequests st ++ mocked ops.
Proof.
  revert st. induction ops as [|op ops IH]; intros st.
  - simpl. now rewrite app_nil_r.
  - change (run (op :: ops) st) with (run ops (step op st)).
    rewrite IH, step_requests. unfold mocked. simpl.
    now rewrite app_nil_r, app_assoc.
Qed.

Lemma step_keeps_routes_in_order (op : operation) (st : state) :
  routes_in_order st -> routes_in_order (step op st).
Proof.
  intros (mocks & Hroutes & Hmocks & Hflag & Hlisten).
  assert (Hsnoc : forall x : string * handler,
             is_monitor x = false ->
             forallb (fun r => negb (is_monitor r)) (mocks ++ [x]) = true).
  { intros x Hx. rewrite forallb_app, Hmocks. simpl. now rewrite Hx. }
  destruct op as [ok | p b ok1 ok2 | | pattern | [|body] req]; simpl;
    try (exists mocks; repeat split; assumption);
    unfold setupMockResponse, startRequestMonitoring, routes_in_order, observer_route in *;
    destruct (isMonitoringRequests st) eqn:Hf.
  - cbn. exists mocks. rewrite ?Hf. repeat split; assumption.
  - destruct Hflag as [-> | Hflag]; [|discriminate].
    destruct ok; cbn; exists []; rewrite ?Hf, Hroutes, ?Hlisten;
      repeat split; now left.
  - destruct ok2; cbn; rewrite ?Hf;
      [exists (mocks ++ [(p, Mock b)]) | exists mocks];
      rewrite ?Hroutes, ?Hlisten; repeat split;
      first [assumption | now apply Hsnoc | now right | now rewrite <- app_assoc].
  - destruct Hflag as [-> | Hflag]; [|discriminate].
    destruct ok1, ok2; cbn; rewrite ?Hf;
      first [ exists [(p, Mock b)]; rewrite ?Hroutes, ?Hlisten; repeat split; now right
            | exists []; rewrite ?Hroutes, ?Hlisten; repeat split; now left ].
Qed.

(** X4. Over any sequence of awaited calls and delivered requests on a
    fresh instance (every call settles before the next one starts), the
    route table stays in order: the catch-all observer, if installed, was
    registered first and once; every other route is an interceptor; no
    interceptor is registered on an instance that is not monitoring; and
    there is one ['response'] listener per observer. *)
Theorem routes_stay_in_order (ops : list operation) :
  routes_in_order (run ops (constructor char)).
Proof.
  assert (H : forall st, routes_in_order st -> routes_in_order (run ops st)).
  { induction ops as [|op ops IH]; intros st Hst; [assumption|].
    apply IH. now apply step_keeps_routes_in_order. }
  apply H. exists []. repeat split. now left.
Qed.
End Facts.
End NetworkMockRunFacts.

(** ** Fixtures and the state file, once more *)

Section MoreFixtureFacts.
Context {number : Type}.
Variable E : Env number.

Local Abbreviation event := (event number).

(** X5. [loadTestData] never raises and makes exactly one call, the
    reading of the file it was given.  What it returns is the parsed
    content of that file, or the empty object when the file cannot be
    read or is not JSON. *)
Theorem loadTestData_never_raises (filePath : string) (h : list event) :
  exists data,
    loadTestData E filePath h
    = (Ok data, [Ev (FsReadFile filePath) (respond E h string (FsReadFile filePath))])
    /\ ((exists text, respond E h string (FsReadFile filePath) = Resolved text
                      /\ JSON_parse E text = Some data)
        \/ (data = VObj []
            /\ forall text, respond E h string (FsReadFile filePath) = Resolved text ->
                            JSON_parse E text = None)).
Proof.
  unfold loadTestData, parse. unfold_monad.
  destruct (respond E h string (FsReadFile filePath)) as [text|m] eqn:Hread.
  - destruct (JSON_parse E text) as [data|] eqn:Hparse.
    + exists data. split; [reflexivity|]. left. now exists text.
    + exists (VObj []). split; [reflexivity|]. right. split; [reflexivity|].
      intros text' Heq. now injection Heq as <-.
  - exists (VObj []). split; [reflexivity|]. right. split; [reflexivity|].
    intros text Heq. discriminate Heq.
Qed.

Lemma loadTestData_unusable (filePath : string) (h : list event) :
  (forall text, respond E h string (FsReadFile filePath) = Resolved text ->
                JSON_parse E text = None) ->
  loadTestData E filePath h
  = (Ok (VObj []), [Ev (FsReadFile filePath) (respond E h string (FsReadFile filePath))]).
Proof.
  intros Hbad. unfold loadTestData, parse. unfold_monad.
  destruct (respond E h string (FsReadFile filePath)) as [text|m] eqn:Hread;
    [|reflexivity].
  now rewrite (Hbad text eq_refl).
Qed.

(** X6. A fixture file that cannot be read or is not JSON is never
    reported as such by [getTestData]: the error the caller gets is the
    "not found" error for the key asked for (for every key that is not a
    name inherited from [Object.prototype]). *)
Theorem getTestData_hides_file_errors (dataType : string) (h : list event) :
  (forall text, respond E h string (FsReadFile testDataPath) = Resolved text ->
                JSON_parse E text = None) ->
  existsb (String.eqb dataType) Object_prototype = false ->
  getTestData E dataType h
  = (Throw (testData_not_found dataType),
     [Ev (FsReadFile testDataPath) (respond E h string (FsReadFile testDataPath))]).
Proof.
  intros Hbad Hkey.
  rewrite (getTestData_unowned_key E dataType h [] _
             (loadTestData_unusable testDataPath h Hbad) eq_refl).
  now rewrite Hkey.
Qed.

(** X7. [getTestData] on a key the fixture object holds: a truthy value
    is returned as it is; a falsy one ([null], [false], [0], the empty
    string) is reported as "not found", like a key that is absent. *)
Theorem getTestData_own_key (dataType : string) (h : list event) fields n entry :
  loadTestData E testDataPath h = (Ok (VObj fields), n) ->
  own_property dataType fields = Some entry ->
  getTestData E dataType h
  = (if truthy E entry then Ok entry else Throw (testData_not_found dataType), n).
Proof.
  intros Hload Hkey. unfold getTestData, get. unfold_monad.
  rewrite Hload, Hkey.
  destruct (truthy E entry); cbn [negb]; now rewrite ?app_nil_r.
Qed.

(** X8. [getCredentials] needs the [users] object: on a credentials file
    without a [users] member every user type is "not found", the names
    inherited from [Object.prototype] included; with it, a user type
    holding a truthy record gets that record. *)
Theorem getCredentials_through_users (userType : string) (h : list event) fields n :
  loadTestData E credentialsPath h = (Ok (VObj fields), n) ->
  (own_property "users" fields = None ->
   getCredentials E userType h = (Throw (credentials_not_found userType), n))
  /\ (forall users user,
        own_property "users" fields = Some (VObj users) ->
        own_property userType users = Some user ->
        truthy E user = true ->
        getCredentials E userType h = (Ok user, n)).
Proof.
  intros Hload. split.
  - intros Husers. unfold getCredentials, get. unfold_monad.
    rewrite Hload, Husers. cbn. now rewrite ?app_nil_r.
  - intros users user Husers Huser Htrue. unfold getCredentials, get. unfold_monad.
    rewrite Hload, Husers. cbn [truthy negb]. rewrite Huser, Htrue.
    cbn [negb]. now rewrite ?app_nil_r.
Qed.

(** X9. [isStateFileValid] never raises and touches nothing but the file
    it was given, with at most two calls.  Its answer is truthy only if
    the file was accessed, read and parsed. *)
Theorem isStateFileValid_never_raises (filePath : string) (h : list event) :
  exists answer n,
    isStateFileValid E filePath h = (Ok answer, n)
    /\ (List.length n <= 2)%nat
    /\ forallb (touches_file filePath) n = true
    /\ (truthy E answer = true ->
        exists text state,
          In (Ev (FsReadFile filePath) (Resolved text)) n
          /\ JSON_parse E text = Some state
          /\ fst (has_cookies E state []) = Ok answer).
Proof.
  unfold isStateFileValid, parse. unfold_monad.
  destruct (respond E h unit (FsAccess filePath)) as [u|m] eqn:Haccess.
  2:{ eexists; eexists. split; [reflexivity|]. cbn. rewrite String.eqb_refl.
      repeat split; [lia | discriminate]. }
  match goal with
  | |- context [respond E ?h' string (FsReadFile filePath)] =>
      destruct (respond E h' string (FsReadFile filePath)) as [text|m] eqn:Hread
  end.
  2:{ eexists; eexists. split; [reflexivity|]. cbn. rewrite String.eqb_refl.
      repeat split; [lia | discriminate]. }
  destruct (JSON_parse E text) as [state|] eqn:Hparse.
  2:{ eexists; eexists. split; [reflexivity|]. cbn. rewrite String.eqb_refl.
      repeat split; [lia | discriminate]. }
  match goal with
  | |- context [has_cookies E state ?h'] => rewrite (has_cookies_pure E state h')
  end.
  destruct (fst (has_cookies E state [])) as [answer| |] eqn:Hcond.
  - eexists; eexists. split; [reflexivity|]. cbn. rewrite String.eqb_refl.
    repeat split; [lia|]. intros _. exists text, state.
    repeat split; try assumption. right. now left.
  - eexists; eexists. split; [reflexivity|]. cbn. rewrite String.eqb_refl.
    repeat split; [lia | discriminate].
  - now destruct (has_cookies_emits E any_event state []).
Qed.
End MoreFixtureFacts.

(** ** The helper and the orchestration on the same state file *)

Section StateFileAgreement.
Context {number : Type}.
Variable E : Env number.

Local Abbreviation event := (event number).

Lemma isLoggedIn_adds_no_cookies (h : list event) :
  existsb is_add_cookies (snd (isLoggedIn E h)) = false.
Proof.
  destruct (isLoggedIn_emits E h) as [_ H].
  eapply forallb_excludes; [|exact H].
  intros [T a o]. destruct a; try discriminate; reflexivity.
Qed.

Lemma usable_state_has_a_cookies_member (state usable : value number) :
  fst (has_cookies E state []) = Ok usable ->
  truthy E usable = true ->
  exists cookies, fst (get E state "cookies" []) = Ok cookies.
Proof.
  unfold has_cookies. intros Hcond Htrue.
  destruct (truthy E state) eqn:Hstate.
  - destruct state; try discriminate Hstate; cbn; eauto.
  - cbn in Hcond. injection Hcond as <-. congruence.
Qed.

Ltac agree_step :=
  match goal with
  | |- context [match respond ?E' ?h ?T ?a with _ => _ end] =>
      destruct (respond E' h T a) eqn:?
  | |- context [match JSON_parse ?E' ?t with _ => _ end] =>
      destruct (JSON_parse E' t) eqn:?
  | |- context [has_cookies ?E' ?s ?h] =>
      rewrite (has_cookies_pure E' s h);
      destruct (fst (has_cookies E' s [])) as [?| |] eqn:?;
      [ | | now destruct (has_cookies_emits E' any_event s []) ]
  | |- context [get ?E' ?s ?k ?h] =>
      rewrite (get_pure E' s k h);
      destruct (fst (get E' s k [])) as [?| |] eqn:?;
      [ | | now destruct (get_emits E' any_event s k []) ]
  | |- context [isLoggedIn ?E' ?h] =>
      let H := fresh "Hquiet" in
      pose proof (isLoggedIn_adds_no_cookies h) as H;
      destruct (isLoggedIn E' h) as [[[]| |] ?]; cbn [snd] in H
  | |- context [if ?b then _ else _] => destruct b eqn:?
  end.

(** X10. [isStateFileValid] and [ensureLoggedIn] judge the state file
    alike.  When the file system gives both the same answers, the helper
    answers truthy exactly when the stored-cookie step of
    [ensureLoggedIn] goes on to call [addCookies]. *)
Theorem state_file_checks_agree (h1 h2 : list event) :
  respond E h1 unit (FsAccess storageStatePath)
  = respond E h2 unit (FsAccess storageStatePath) ->
  (forall u,
      respond E (h1 ++ [Ev (FsAccess storageStatePath) (Resolved u)]) string
              (FsReadFile storageStatePath)
      = respond E (h2 ++ [Ev (FsAccess storageStatePath) (Resolved u)]) string
                (FsReadFile storageStatePath)) ->
  exists answer,
    fst (isStateFileValid E storageStatePath h1) = Ok answer
    /\ truthy E answer
       = existsb is_add_cookies (snd (login_with_stored_cookies E h2)).
Proof.
  intros Haccess Hread.
  unfold isStateFileValid, login_with_stored_cookies, login_with_stored_cookies_body, parse.
  unfold_monad. rewrite Haccess.
  destruct (respond E h2 unit (FsAccess storageStatePath)) as [u|m];
    [|exists (VBool false); split; reflexivity].
  rewrite (Hread u).
  repeat (agree_step; unfold_monad).
  all: cbn [fst snd].
  all: try (eexists; split; [reflexivity|];
            rewrite ?existsb_app; cbn [existsb is_add_cookies orb];
            rewrite ?orb_false_r; first [assumption | now symmetry | congruence]).
  match goal with
  | Hc : fst (has_cookies E ?s []) = Ok ?a, Ht : truthy E ?a = true,
    Hg : fst (get E ?s "cookies" []) = Throw _ |- _ =>
      destruct (usable_state_has_a_cookies_member s a Hc Ht) as [c Hget];
      rewrite Hget in Hg; discriminate Hg
  end.
Qed.
End StateFileAgreement.

(** ** The login-state detector, once more *)

Section MoreLoginStateFacts.
Context {number : Type}.
Variable E : Env number.

Local Abbreviation event := (event number).

(** Every run of [isLoggedIn] at once: the evidence behind a [true], and
    what the run costs. *)
Lemma isLoggedIn_profile (h : list event) :
  let (r, n) := isLoggedIn E h in
  (r = Ok true ->
   existsb address_evidence n || existsb account_evidence n = true)
  /\ (List.length n <= 11)%nat
  /\ total_sleep n <= 1500
  /\ (List.length (filter is_click n) <= 1)%nat.
Proof.
  unfold isLoggedIn, loggedInIndicators, notLoggedInIndicators.
  cbv [any_indicator_visible isVisible_or_false].
  run_all; cbn [app List.length filter is_click]; unfold total_sleep;
    cbn [fold_right app sleep_of];
    (split; [intros Htrue; try discriminate Htrue;
             cbn [existsb app]; unfold address_evidence, account_evidence, seen;
             unfold address_says_logged_in;
             repeat match goal with H : _ = true |- _ => rewrite H end;
             cbn; rewrite ?orb_true_r; reflexivity
            | repeat split; lia]).
Qed.

(** X11. [isLoggedIn] never answers [true] without evidence from the
    page: either an address it read contains [www.funda.nl], or contains
    [funda.nl] and not [login.funda.nl], or it looked up the "Account"
    text or the log-out link and saw it. *)
Theorem isLoggedIn_true_has_evidence (h : list event) :
  let (r, n) := isLoggedIn E h in
  r = Ok true ->
  existsb address_evidence n || existsb account_evidence n = true.
Proof.
  pose proof (isLoggedIn_profile h) as H.
  destruct (isLoggedIn E h) as [r n]. apply H.
Qed.

(** X12. A run of [isLoggedIn] is short: at most eleven calls to the
    browser, at most one click, and sleeps of at most 1500 ms in all. *)
Theorem isLoggedIn_is_short (h : list event) :
  let (r, n) := isLoggedIn E h in
  (List.length n <= 11)%nat
  /\ total_sleep n <= 1500
  /\ (List.length (filter is_click n) <= 1)%nat.
Proof.
  pose proof (isLoggedIn_profile h) as H.
  destruct (isLoggedIn E h) as [r n]. apply H.
Qed.

(** X13. Any page whose address passes the test counts as logged in,
    unseen: [isLoggedIn] returns [true] after its first sleep and two
    readings of the address, without looking up a single element. *)
Theorem isLoggedIn_trusts_the_address (h : list event) (url0 url : string) (u : unit) :
  respond E h string PageUrl = Resolved url0 ->
  respond E (h ++ [Ev PageUrl (Resolved url0)]) unit (WaitForTimeout 1000) = Resolved u ->
  respond E ((h ++ [Ev PageUrl (Resolved url0)])
               ++ [Ev (WaitForTimeout 1000) (Resolved u)]) string PageUrl
  = Resolved url ->
  address_says_logged_in url = true ->
  isLoggedIn E h
  = (Ok true,
     [ Ev PageUrl (Resolved url0);
       Ev (WaitForTimeout 1000) (Resolved u);
       Ev PageUrl (Resolved url) ]).
Proof.
  intros H1 H2 H3 Hurl. unfold isLoggedIn. unfold_monad.
  rewrite H1, H2, H3. unfold address_says_logged_in in Hurl. now rewrite Hurl.
Qed.

(** X14. [acceptCookiesIfVisible] never raises and makes at most four
    calls.  It clicks nothing but the accept button, and that only after
    it has looked the button up and seen it. *)
Theorem acceptCookiesIfVisible_never_raises (h : list event) :
  exists n,
    acceptCookiesIfVisible E h = (Ok tt, n)
    /\ (List.length n <= 4)%nat
    /\ existsb other_click n = false
    /\ (existsb is_click n = true -> existsb accept_button_seen n = true).
Proof.
  unfold acceptCookiesIfVisible.
  run_all; try destruct v; try destruct v0; try destruct v1; try destruct v2;
    (eexists; split; [reflexivity|]);
    (split; [cbn; lia|]); (split; [vm_compute; reflexivity|]);
    cbn; intros Hclick; first [discriminate Hclick | vm_compute; reflexivity].
Qed.
End MoreLoginStateFacts.

(** ** The challenge handler, once more *)

Section MoreCaptchaFacts.
Context {number : Type}.
Variable E : Env number.

Local Abbreviation event := (event number).

Lemma ends_with_refl (n : list event) : ends_with n n.
Proof. now exists []. Qed.

Lemma ends_with_app (n1 n2 suffix : list event) :
  ends_with n2 suffix -> ends_with (n1 ++ n2) suffix.
Proof. intros [pre ->]. exists (n1 ++ pre). now rewrite app_assoc. Qed.

Lemma ends_with_cons (e : event) (n suffix : list event) :
  ends_with n suffix -> ends_with (e :: n) suffix.
Proof. intros [pre ->]. now exists (e :: pre). Qed.

Lemma await_captcha_solved_quiet (h : list event) :
  let n := snd (await_captcha_solved E h) in
  filter is_reload n = [] /\ filter is_goto n = [] /\ existsb is_reload n = false.
Proof.
  destruct (await_captcha_solved_emits E wait_phase_event
              (fun _ _ _ => eq_refl) (fun _ _ => eq_refl) h) as [_ H].
  cbn zeta. induction (snd (await_captcha_solved E h)) as [|e n IH]; [now repeat split|].
  cbn in H. apply andb_true_iff in H as [He Hn]. destruct (IH Hn) as (I1 & I2 & I3).
  destruct e as [T a o]. destruct a; try discriminate He; cbn; now rewrite ?I1, ?I2, ?I3.
Qed.

Ltac handler_step :=
  match goal with
  | |- context [await_captcha_solved ?E' ?h'] =>
      let H := fresh "Hquiet" in
      pose proof (await_captcha_solved_quiet h') as H;
      destruct (await_captcha_solved E' h') as [[[]| |] ?];
      cbn [snd] in H; destruct H as (? & ? & ?)
  | |- context [match respond ?E' ?h' ?T ?a with _ => _ end] =>
      destruct (respond E' h' T a) eqn:?
  | |- context [if ?b then _ else _] => destruct b eqn:?
  end.

Ltac count_calls :=
  rewrite ?filter_app, ?existsb_app;
  repeat match goal with
         | H : filter _ _ = [] |- _ => rewrite H
         | H : existsb _ _ = false |- _ => rewrite H
         end;
  cbn.

(** Every run of [handlePossibleCaptcha] at once. *)
Lemma handlePossibleCaptcha_profile (this : BasePage) (options : CaptchaOptions)
    (h : list event) :
  let (r, n) := handlePossibleCaptcha E this options h in
  (existsb is_reload n = true -> existsb access_denied_seen n = true)
  /\ (List.length (filter is_reload n) <= 1)%nat
  /\ (List.length (filter is_goto n) <= 1)%nat
  /\ (r = Ok tt ->
      exists url,
        (ends_with n [Ev PageUrl (Resolved url)]
         /\ str_includes url (return_path_of options) = true)
        \/ ends_with n
             [ Ev PageUrl (Resolved url);
               Ev (PageGoto (navigate_target this (return_path_of options)
                                             (useMainSite options))) (Resolved tt);
               Ev (WaitForTimeout 1000) (Resolved tt) ]).
Proof.
  unfold handlePossibleCaptcha, navigate, isVisible_or_false. cbn zeta.
  fold (return_path_of options).
  fold (navigate_target this (return_path_of options) (useMainSite options)).
  set (rp := return_path_of options).
  set (target := navigate_target this rp (useMainSite options)).
  unfold_monad. repeat (handler_step; unfold_monad).
  all: split; [count_calls; intros Hreload; first [discriminate Hreload | reflexivity]|].
  all: split; [count_calls; lia|].
  all: split; [count_calls; lia|].
  all: intros Hok; try discriminate Hok.
  all: repeat match goal with u : unit |- _ => destruct u end.
  all: cbn [app]; rewrite ?app_nil_r.
  all: match goal with
       | Hcond : _ || negb (str_includes ?url ?p) = false |- _ =>
           exists url; left; split;
           [ repeat first [apply ends_with_refl | apply ends_with_app | apply ends_with_cons]
           | apply orb_false_iff in Hcond as [_ Hcond]; now destruct (str_includes url p) ]
       | Hcond : _ || negb (str_includes ?url ?p) = true |- _ =>
           exists url; right;
           repeat first [apply ends_with_refl | apply ends_with_app | apply ends_with_cons]
       end.
Qed.

(** X15. [handlePossibleCaptcha] reloads the page at most once, and only
    after it has looked up the access-denied page and seen it; and it
    navigates at most once. *)
Theorem handlePossibleCaptcha_reloads_only_when_denied (this : BasePage)
    (options : CaptchaOptions) (h : list event) :
  let (r, n) := handlePossibleCaptcha E this options h in
  (existsb is_reload n = true -> existsb access_denied_seen n = true)
  /\ (List.length (filter is_reload n) <= 1)%nat
  /\ (List.length (filter is_goto n) <= 1)%nat.
Proof.
  pose proof (handlePossibleCaptcha_profile this options h) as H.
  destruct (handlePossibleCaptcha E this options h) as [r n].
  destruct H as (H1 & H2 & H3 & _). now repeat split.
Qed.

(** X16. When [handlePossibleCaptcha] returns normally, the page is where
    the caller wants it as far as the handler can tell: its last call
    either read an address that contains the return path, or was the
    one-second sleep after loading the return path. *)
Theorem handlePossibleCaptcha_ends_on_return_path (this : BasePage)
    (options : CaptchaOptions) (h : list event) :
  let (r, n) := handlePossibleCaptcha E this options h in
  r = Ok tt ->
  exists url,
    (ends_with n [Ev PageUrl (Resolved url)]
     /\ str_includes url (return_path_of options) = true)
    \/ ends_with n
         [ Ev PageUrl (Resolved url);
           Ev (PageGoto (navigate_target this (return_path_of options)
                                         (useMainSite options))) (Resolved tt);
           Ev (WaitForTimeout 1000) (Resolved tt) ].
Proof.
  pose proof (handlePossibleCaptcha_profile this options h) as H.
  destruct (handlePossibleCaptcha E this options h) as [r n]. apply H.
Qed.

Lemma acceptCookiesIfVisible_returns (h : list event) :
  exists n, acceptCookiesIfVisible E h = (Ok tt, n).
Proof.
  unfold acceptCookiesIfVisible.
  run_all; repeat match goal with u : unit |- _ => destruct u end;
    eexists; reflexivity.
Qed.

(** X17. [navigateToRegistration] calls the challenge handler without a
    return path, so the handler's default, the login page, applies: when
    [navigateToRegistration] returns normally, either the address last
    read contains [account/login], or the last page it loaded is the
    login page, not the registration page. *)
Theorem navigateToRegistration_ends_on_login_page (h : list event) :
  let (r, n) := navigateToRegistration E new_LoginPage h in
  r = Ok tt ->
  exists url,
    (ends_with n [Ev PageUrl (Resolved url)]
     /\ str_includes url "account/login" = true)
    \/ ends_with n
         [ Ev PageUrl (Resolved url);
           Ev (PageGoto "https://login.funda.nl/account/login") (Resolved tt);
           Ev (WaitForTimeout 1000) (Resolved tt) ].
Proof.
  unfold navigateToRegistration, navigate. cbn zeta. unfold bind at 1, perform.
  match goal with
  | |- context [respond E h unit ?a] => destruct (respond E h unit a) as [u|m]
  end; [|intros Hok; discriminate Hok].
  unfold bind.
  match goal with
  | |- context [acceptCookiesIfVisible E ?h'] =>
      destruct (acceptCookiesIfVisible_returns h') as [n1 ->]
  end.
  match goal with
  | |- context [handlePossibleCaptcha E new_LoginPage no_options ?h'] =>
      pose proof (handlePossibleCaptcha_profile new_LoginPage no_options h') as H;
      destruct (handlePossibleCaptcha E new_LoginPage no_options h') as [r n2]
  end.
  destruct H as (_ & _ & _ & H). intros Hok. destruct (H Hok) as [url [[Hend Hurl] | Hend]];
    exists url; [left; split; [|exact Hurl] | right];
    repeat first [apply ends_with_app | exact Hend].
Qed.

(** The loop raises only when one of its sleeps fails: the error is the
    rejection of that sleep, the last call made. *)
Lemma captcha_poll_raises (fuel : nat) :
  forall t h,
    let (r, n) := captcha_poll E fuel t h in
    forall cause,
      r = Throw cause ->
      ends_with n [Ev (WaitForTimeout checkInterval) (Rejected cause)].
Proof.
  induction fuel as [|fuel IH]; intros t h.
  - cbn. intros cause Hr. discriminate Hr.
  - cbn [captcha_poll]. destruct (t <? timeout); [|intros cause Hr; discriminate Hr].
    unfold isVisible_or_false. unfold_monad.
    repeat match goal with
           | |- context [match respond E ?h' bool ?a with _ => _ end] =>
               destruct (respond E h' bool a) as [[|]|?]
           end;
      cbn [negb orb app]; try (intros cause Hr; discriminate Hr).
    all: match goal with
         | |- context [respond E ?h' unit (WaitForTimeout checkInterval)] =>
             destruct (respond E h' unit (WaitForTimeout checkInterval)) as [u|m]
         end.
    all: try (intros cause Hr; injection Hr as <-;
              repeat first [apply ends_with_refl | apply ends_with_cons]).
    all: match goal with
         | IH' : forall _ _, _ |- context [captcha_poll ?E' ?f ?t' ?h'] =>
             specialize (IH' t' h'); destruct (captcha_poll E' f t' h') as [[t''| |] n']
         end; intros cause Hr; try discriminate Hr.
    all: injection Hr as <-; repeat apply ends_with_cons;
      match goal with IH' : forall _, _ -> _ |- _ => now apply IH' end.
Qed.

(** X18. Whatever goes wrong while the handler waits for the checkbox
    challenge, the caller gets ["Failed to handle CAPTCHA: "] followed by
    the message of the cause.  There are two causes: the ceiling was
    reached, after forty completed sleeps, and the message is that of the
    timeout; or a sleep failed, of the loop or the one after it, that
    sleep is the last call made and the message is its rejection. *)
Theorem await_captcha_solved_wraps_errors (h : list event) :
  let (r, n) := await_captcha_solved E h in
  forall message,
    r = Throw message ->
    (message = "Failed to handle CAPTCHA: CAPTCHA solving timeout exceeded. Test failed."
     /\ checkInterval * polls n = timeout)
    \/ exists ms cause,
         ends_with n [Ev (WaitForTimeout ms) (Rejected cause)]
         /\ (ms = checkInterval \/ ms = 2000)
         /\ message = ("Failed to handle CAPTCHA: " ++ cause)%string.
Proof.
  unfold await_captcha_solved. unfold_monad.
  pose proof (captcha_poll_exits E h) as Hexit.
  pose proof (captcha_poll_raises poll_fuel 0 h) as Hraise.
  destruct (captcha_poll E poll_fuel 0 h) as [[t'|cause0|] n]; [| |contradiction].
  - destruct Hexit as [Ht Hle]. destruct (t' >=? timeout) eqn:Hge.
    + intros message Hr. injection Hr as <-. left. split; [reflexivity|].
      rewrite Z.geb_leb in Hge. apply Z.leb_le in Hge.
      rewrite !polls_app. change (polls []) with 0. lia.
    + match goal with
      | |- context [respond E ?h' unit (WaitForTimeout 2000)] =>
          destruct (respond E h' unit (WaitForTimeout 2000)) as [u|cause]
      end; intros message Hr; [discriminate Hr|].
      injection Hr as <-. right. exists 2000, cause. rewrite app_nil_r.
      split; [apply ends_with_app, ends_with_refl | split; [now right | reflexivity]].
  - intros message Hr. injection Hr as <-. right. exists checkInterval, cause0.
    rewrite app_nil_r. split; [now apply Hraise | split; [now left | reflexivity]].
Qed.

(** X19. In a headless run the handler never sleeps in its polling loop,
    and the checkbox challenge is fatal at once: when the handler sees it,
    it raises, and that lookup is the last call it made. *)
Theorem headless_run_never_polls (this : BasePage) (options : CaptchaOptions)
    (h : list event) :
  headless E = true ->
  let (r, n) := handlePossibleCaptcha E this options h in
  polls n = 0
  /\ (existsb checkbox_challenge_detected n = true ->
      r = Throw "CAPTCHA detected in headless mode. Test cannot proceed automatically."
      /\ exists d, checkbox_challenge_detected d = true /\ n = removelast n ++ [d]).
Proof.
  intros Hheadless.
  pose proof (handlePossibleCaptcha_bounded E this options h) as Hbound.
  pose proof (headless_checkbox_fails_fast E this options h Hheadless) as Hfast.
  destruct (handlePossibleCaptcha E this options h) as [r n].
  destruct Hbound as (_ & _ & _ & Hpolls). split; [now apply Hpolls | exact Hfast].
Qed.
End MoreCaptchaFacts.

(** ** The login form *)

Section LoginFormFacts.
Context {number : Type}.
Variable E : Env number.

Local Abbreviation event := (event number).
Local Abbreviation M := (M number).

Lemma handlePossibleCaptcha_emits_any (P : event -> bool) (this : BasePage)
    (options : CaptchaOptions) :
  besides_submit P -> emits P (handlePossibleCaptcha E this options).
Proof.
  intros HP. unfold handlePossibleCaptcha, navigate. cbn zeta.
  repeat first
    [ apply emits_ret
    | apply emits_throw
    | apply emits_perform; intros; apply HP; reflexivity
    | apply isVisible_or_false_emits; intros; apply HP; reflexivity
    | apply await_captcha_solved_emits; intros; apply HP; reflexivity
    | apply emits_try_catch; [|intros ?]
    | apply emits_bind; [|intros ?]
    | match goal with
      | |- emits _ (if ?b then _ else _) => destruct b
      end ].
Qed.

Lemma navigateToLogin_emits_any (P : event -> bool) (this : BasePage) :
  besides_submit P -> emits P (navigateToLogin E this).
Proof.
  intros HP. unfold navigateToLogin, navigate, acceptCookiesIfVisible. cbn zeta.
  repeat first
    [ apply emits_ret
    | apply handlePossibleCaptcha_emits_any; exact HP
    | apply emits_perform; intros; apply HP; reflexivity
    | apply emits_try_catch; [|intros ?]
    | apply emits_bind; [|intros ?]
    | match goal with
      | |- emits _ (if ?b then _ else _) => destruct b
      end ].
Qed.

Lemma isLoggedIn_emits_any (P : event -> bool) :
  besides_submit P -> emits P (isLoggedIn E).
Proof.
  intros HP. apply (emits_weaken login_check_event); [|apply isLoggedIn_emits].
  intros [T a o] He. apply HP. destruct a; try discriminate He; try reflexivity.
  cbn in He |- *. apply String.eqb_eq in He. now subst.
Qed.

Lemma LoginPage_login_terminates (this : BasePage) (email password : value number) :
  emits any_event (LoginPage_login E this email password).
Proof.
  unfold LoginPage_login.
  repeat first
    [ apply emits_ret
    | apply isLoggedIn_emits_any; intros ? ?; reflexivity
    | apply navigateToLogin_emits_any; intros ? ?; reflexivity
    | apply handlePossibleCaptcha_emits_any; intros ? ?; reflexivity
    | apply emits_perform; intros; reflexivity
    | apply isVisible_or_false_emits; intros; reflexivity
    | apply emits_try_catch; [|intros ?]
    | apply emits_bind; [|intros ?]
    | match goal with |- emits _ (if ?b then _ else _) => destruct b end ].
Qed.

(** X20. [LoginPage.login] never raises, on any page object and with any
    credentials: a navigation that fails, a challenge that is fatal or
    times out, a field that cannot be filled, all end in a boolean
    answer. *)
Theorem LoginPage_login_never_raises (this : BasePage) (email password : value number)
    (h : list event) :
  exists b n, LoginPage_login E this email password h = (Ok b, n).
Proof.
  exact (swallow_always_returns any_event _ false
           (LoginPage_login_terminates this email password) h).
Qed.

Lemma quiet_then (wanted : list event) {A B} (m : M A) (k : A -> M B) :
  emits no_submit m ->
  (forall a, submits_only_after wanted (k a)) ->
  submits_only_after wanted (bind m k).
Proof.
  intros Hm Hk h. unfold bind. destruct (Hm h) as [_ Hquiet].
  destruct (m h) as [[a| |] n1]; cbn [snd] in *.
  - specialize (Hk a (h ++ n1)). destruct (k a (h ++ n1)) as [r n2]. cbn [snd] in *.
    rewrite existsb_app. intros Hsub e He. apply in_or_app. right.
    apply Hk; [|exact He].
    rewrite (forallb_excludes no_submit is_submit n1) in Hsub; [exact Hsub | | exact Hquiet].
    intros e' He'. unfold no_submit in He'. now destruct (is_submit e').
  - intros Hsub. exfalso.
    rewrite (forallb_excludes no_submit is_submit n1) in Hsub; [discriminate | | exact Hquiet].
    intros e' He'. unfold no_submit in He'. now destruct (is_submit e').
  - intros Hsub. exfalso.
    rewrite (forallb_excludes no_submit is_submit n1) in Hsub; [discriminate | | exact Hquiet].
    intros e' He'. unfold no_submit in He'. now destruct (is_submit e').
Qed.

Lemma quiet_alone (wanted : list event) {A} (m : M A) :
  emits no_submit m -> submits_only_after wanted m.
Proof.
  intros Hm h Hsub. exfalso. destruct (Hm h) as [_ Hquiet].
  rewrite (forallb_excludes no_submit is_submit _) in Hsub; [discriminate | | exact Hquiet].
  intros e' He'. unfold no_submit in He'. now destruct (is_submit e').
Qed.

Lemma fill_then (selector : string) (text : value number) (wanted : list event)
    {B} (k : unit -> M B) :
  submits_only_after wanted (k tt) ->
  submits_only_after (Ev (Fill selector text) (Resolved tt) :: wanted)
                     (bind (perform E (Fill selector text)) k).
Proof.
  intros Hk h. unfold bind, perform.
  destruct (respond E h unit (Fill selector text)) as [[]|m]; cbn [snd].
  - specialize (Hk (h ++ [Ev (Fill selector text) (Resolved tt)])).
    destruct (k tt _) as [r n2]. cbn [snd app existsb is_submit orb] in *.
    intros Hsub e [<- | He]; [now left | right; now apply Hk].
  - intros Hsub. discriminate Hsub.
Qed.

Lemma swallow_keeps_order (wanted : list event) {A} (m : M A) (x : A) :
  submits_only_after wanted m ->
  submits_only_after wanted (try_catch m (fun _ => ret x)).
Proof.
  intros Hm h. unfold try_catch. specialize (Hm h).
  destruct (m h) as [[a| |] n1]; cbn [snd ret] in *; rewrite ?app_nil_r; exact Hm.
Qed.

(** X21. [LoginPage.login] never submits the form half filled: if the
    login button is clicked at all, both fields were filled before,
    successfully, the user-name field with the e-mail address and the
    password field with the password it was given. *)
Theorem LoginPage_login_submits_only_filled (this : BasePage)
    (email password : value number) (h : list event) :
  let n := snd (LoginPage_login E this email password h) in
  existsb is_submit n = true ->
  In (Ev (Fill loginForm_emailInput email) (Resolved tt)) n
  /\ In (Ev (Fill loginForm_passwordInput password) (Resolved tt)) n.
Proof.
  assert (H : submits_only_after
                [ Ev (Fill loginForm_emailInput email) (Resolved tt);
                  Ev (Fill loginForm_passwordInput password) (Resolved tt) ]
                (LoginPage_login E this email password)).
  { unfold LoginPage_login. apply swallow_keeps_order.
    apply quiet_then; [apply isLoggedIn_emits_any; intros e He; unfold no_submit; now rewrite He|].
    intros [|]; [apply quiet_alone, emits_ret|].
    apply quiet_then;
      [apply navigateToLogin_emits_any; intros e He; unfold no_submit; now rewrite He|].
    intros _. apply quiet_then;
      [apply handlePossibleCaptcha_emits_any; intros e He; unfold no_submit; now rewrite He|].
    intros _. apply quiet_then; [apply isVisible_or_false_emits; reflexivity|].
    intros onForm. apply quiet_then.
    { destruct (negb onForm); [|apply emits_ret].
      apply emits_bind;
        [apply navigateToLogin_emits_any | intros _; apply handlePossibleCaptcha_emits_any];
        intros e He; unfold no_submit; now rewrite He. }
    intros _. apply fill_then. apply fill_then.
    intros h' _ e []. }
  cbn zeta. intros Hsub. split; apply (H h Hsub); cbn; auto.
Qed.
End LoginFormFacts.

(** ** No success without a check *)

Section SoundnessFacts.
Context {number : Type}.
Variable E : Env number.

Local Abbreviation event := (event number).
Local Abbreviation M := (M number).

Lemma check_is_a_check : true_only_after_check E (isLoggedIn E).
Proof.
  intros h n Hrun. exists [], n, []. rewrite !app_nil_r. now split.
Qed.

Lemma then_checked {A} (m : M A) (k : A -> M bool) :
  (forall a, true_only_after_check E (k a)) ->
  true_only_after_check E (bind m k).
Proof.
  intros Hk h n. unfold bind.
  destruct (m h) as [[a| |] n1]; try discriminate.
  destruct (k a (h ++ n1)) as [r n2] eqn:Hrun. intros Heq. injection Heq as -> <-.
  destruct (Hk a _ _ Hrun) as (pre & check & post & -> & Hcheck).
  exists (n1 ++ pre), check, post. split; [now rewrite app_assoc|].
  now rewrite app_assoc.
Qed.

Lemma swallowed_checked (m : M bool) :
  true_only_after_check E m ->
  true_only_after_check E (try_catch m (fun _ => ret false)).
Proof.
  intros Hm h n. unfold try_catch.
  destruct (m h) as [[b| |] n1] eqn:Hrun; cbn [ret]; try discriminate.
  intros Heq. injection Heq as -> <-. now apply Hm.
Qed.

Lemma never_true (m : M bool) :
  (forall h n, m h <> (Ok true, n)) -> true_only_after_check E m.
Proof. intros Hm h n Hrun. now destruct (Hm h n). Qed.

Lemma answered_checked (m : M bool) :
  true_only_after_check E m ->
  true_only_after_check E (bind m (fun b => if b then ret true else ret false)).
Proof.
  intros Hm h n. unfold bind.
  destruct (m h) as [[[|]| |] n1] eqn:Hrun; cbn [ret]; try discriminate.
  intros Heq. injection Heq as <-. rewrite app_nil_r. now apply Hm.
Qed.

Lemma check_first (k : M bool) :
  true_only_after_check E k ->
  true_only_after_check E
    (bind (isLoggedIn E) (fun b => if b then ret true else k)).
Proof.
  intros Hk h n. unfold bind.
  destruct (isLoggedIn E h) as [[[|]| |] n1] eqn:Hcheck; try discriminate.
  - cbn [ret]. intros Heq. injection Heq as <-.
    exists [], n1, []. rewrite !app_nil_r. now split.
  - destruct (k (h ++ n1)) as [r n2] eqn:Hrun. intros Heq. injection Heq as -> <-.
    destruct (Hk _ _ Hrun) as (pre & check & post & -> & Hc).
    exists (n1 ++ pre), check, post. split; [now rewrite app_assoc|].
    now rewrite app_assoc.
Qed.

Lemma LoginPage_login_checked (this : BasePage) (email password : value number) :
  true_only_after_check E (LoginPage_login E this email password).
Proof.
  unfold LoginPage_login. apply swallowed_checked, check_first.
  repeat (apply then_checked; intros ?). apply check_is_a_check.
Qed.

Lemma login_checked (credentials : value number) :
  true_only_after_check E (login E credentials).
Proof.
  unfold login. repeat (apply then_checked; intros ?). apply LoginPage_login_checked.
Qed.

Lemma manual_login_checked : true_only_after_check E (manual_login E).
Proof.
  unfold manual_login, manual_login_body. apply swallowed_checked.
  apply then_checked. intros credentials. apply answered_checked, login_checked.
Qed.

(** X22. [ensureLoggedIn] never reports success on its own authority:
    whenever it returns [true], its run contains a run of [isLoggedIn]
    that answered [true] (the first check, the recheck after the cookies,
    or a check of the manual login). *)
Theorem ensureLoggedIn_true_only_after_check (h : list event) :
  let (r, n) := ensureLoggedIn E h in
  r = Ok true -> contains_true_check E h n.
Proof.
  destruct (ensureLoggedIn E h) as [r n] eqn:Hrun. intros ->. revert Hrun.
  apply (check_first
           (bind (login_with_stored_cookies E)
                 (fun returned => match returned with
                                  | Some b => ret b
                                  | None => manual_login E
                                  end))).
  clear h n. intros h n. unfold bind.
  pose proof (stored_cookies_recheck E h) as Hrecheck.
  destruct (login_with_stored_cookies E h) as [[[b|]| |] n1]; try discriminate.
  - destruct Hrecheck as (-> & pre & n_re & -> & _ & Hcheck).
    cbn [ret]. intros Heq. injection Heq as <-.
    exists pre, n_re, []. split; [now rewrite !app_nil_r | exact Hcheck].
  - destruct (manual_login E (h ++ n1)) as [r n2] eqn:Hmanual.
    intros Heq. injection Heq as -> <-.
    destruct (manual_login_checked _ _ Hmanual) as (pre & check & post & -> & Hc).
    exists (n1 ++ pre), check, post. split; [now rewrite app_assoc|].
    now rewrite app_assoc.
Qed.

(** X23. The same for [LoginPage.login] and for the [login] command:
    an answer [true] always comes out of a run of [isLoggedIn] that
    answered [true], the one before the form or the one after it. *)
Theorem login_true_only_after_check (credentials : value number) (h : list event) :
  (forall this email password,
      let (r, n) := LoginPage_login E this email password h in
      r = Ok true -> contains_true_check E h n)
  /\ (let (r, n) := login E credentials h in
      r = Ok true -> contains_true_check E h n).
Proof.
  split.
  - intros this email password.
    destruct (LoginPage_login E this email password h) as [r n] eqn:Hrun.
    intros ->. exact (LoginPage_login_checked this email password h n Hrun).
  - destruct (login E credentials h) as [r n] eqn:Hrun.
    intros ->. exact (login_checked credentials h n Hrun).
Qed.

(** X24. The [login] command can raise, but only from its first step:
    with a credentials object at hand, an error of [login] is the error
    of the first [navigateToLogin], with the same calls made; everything
    after that step ends in a boolean. *)
Theorem login_raises_only_from_first_navigation
    (fields : list (string * value number)) (h : list event) message n :
  login E (VObj fields) h = (Throw message, n) ->
  navigateToLogin E new_LoginPage h = (Throw message, n).
Proof.
  assert (Hrest : always_returns
            (bind (get E (VObj fields) "email") (fun email =>
             bind (get E (VObj fields) "password") (fun password =>
             LoginPage_login E new_LoginPage email password)))).
  { apply always_returns_bind; [intros h'; eexists; eexists; reflexivity | intros email].
    apply always_returns_bind; [intros h'; eexists; eexists; reflexivity | intros password].
    exact (swallow_always_returns any_event _ false
             (LoginPage_login_terminates E new_LoginPage email password)). }
  unfold login. unfold bind at 1.
  destruct (navigateToLogin E new_LoginPage h) as [[[]| |] n1]; try discriminate.
  - destruct (Hrest (h ++ n1)) as (b & n2 & ->). discriminate.
  - intros Heq. now injection Heq as -> ->.
Qed.
End SoundnessFacts.

(** ** Generated passwords *)

Module RandomPasswordFacts.
Import RandomPassword.

Lemma get_in_range (s : string) (i : nat) :
  (i < String.length s)%nat -> exists c, String.get i s = Some c.
Proof.
  revert i. induction s as [|c s IH]; intros i Hi; [simpl in Hi; lia|].
  destruct i as [|i]; simpl; [now exists c|]. apply IH. simpl in Hi. lia.
Qed.

Lemma length_append (s1 s2 : string) :
  String.length (s1 ++ s2)%string = (String.length s1 + String.length s2)%nat.
Proof. induction s1 as [|c s1 IH]; simpl; [reflexivity | now rewrite IH]. Qed.

Lemma length_list_ascii (s : string) :
  List.length (list_ascii_of_string s) = String.length s.
Proof. induction s as [|c s IH]; simpl; [reflexivity | now rewrite IH]. Qed.

Lemma fill_spec (R : Randomness) (fuel : nat) :
  forall i length turn password,
    length - i <= Z.of_nat fuel ->
    exists suffix,
      fill R fuel i length turn password = Some (password ++ suffix)%string
      /\ (indices_in_range R ->
          String.length suffix = Z.to_nat (length - i)).
Proof.
  induction fuel as [|fuel IH]; intros i length turn password Hfuel.
  - simpl. destruct (i <? length) eqn:Hlt; [apply Z.ltb_lt in Hlt; lia|].
    apply Z.ltb_ge in Hlt. exists EmptyString. split.
    + f_equal. clear. induction password as [|c p IHp]; simpl; [reflexivity | now rewrite <- IHp].
    + intros _. simpl. lia.
  - simpl. destruct (i <? length) eqn:Hlt.
    + apply Z.ltb_lt in Hlt.
      destruct (IH (i + 1) length (S turn)
                   (password ++ char_at (random_index R turn))%string) as (suffix & Hrun & Hlen);
        [lia|].
      exists (char_at (random_index R turn) ++ suffix)%string. split.
      * rewrite Hrun. f_equal. clear.
        induction password as [|c p IHp]; simpl; [reflexivity | now rewrite IHp].
      * intros Hrange. rewrite length_append, (Hlen Hrange).
        unfold char_at. destruct (get_in_range chars _ (Hrange turn)) as [c ->].
        simpl. lia.
    + apply Z.ltb_ge in Hlt. exists EmptyString. split.
      * f_equal. clear. induction password as [|c p IHp]; simpl; [reflexivity | now rewrite <- IHp].
      * intros _. simpl. lia.
Qed.

(** X25. [generateRandomPassword] always produces a password, and one
    that keeps what the function promises in its comments: as long as
    sorting only rearranges, the result holds an upper-case letter, a
    lower-case letter, a digit and a symbol (the four it starts from);
    and when [Math.random] stays below 1 it has exactly [length]
    characters, or four when [length] is less, as with the default 0. *)
Theorem generateRandomPassword_keeps_its_promise (R : Randomness) (length : Z) :
  shuffle_rearranges R ->
  exists password,
    generateRandomPassword R length = Some password
    /\ In "A"%char (list_ascii_of_string password)
    /\ In "a"%char (list_ascii_of_string password)
    /\ In "1"%char (list_ascii_of_string password)
    /\ In "!"%char (list_ascii_of_string password)
    /\ (indices_in_range R ->
        Z.of_nat (String.length password) = Z.max 4 length).
Proof.
  intros Hshuffle. unfold generateRandomPassword. cbn zeta.
  change (Z.of_nat (String.length ("A" ++ "a" ++ "1" ++ "!"))) with 4.
  destruct (fill_spec R (Z.to_nat (length - 4)) 4 length 0 ("A" ++ "a" ++ "1" ++ "!")%string)
    as (suffix & -> & Hlen); [lia|].
  eexists. split; [reflexivity|].
  rewrite list_ascii_of_string_of_list_ascii.
  assert (Hin : forall c, In c (list_ascii_of_string "Aa1!") ->
                          In c (shuffle R (list_ascii_of_string
                                             (("A" ++ "a" ++ "1" ++ "!") ++ suffix)%string))).
  { intros c Hc. apply (Permutation_in _ (Hshuffle _)).
    cbn in Hc |- *. tauto. }
  repeat split; try (apply Hin; cbn; tauto).
  intros Hrange.
  rewrite <- length_list_ascii, list_ascii_of_string_of_list_ascii.
  rewrite <- (Permutation_length (Hshuffle _)), length_list_ascii, length_append.
  rewrite (Hlen Hrange). cbn [String.length append]. lia.
Qed.

Lemma sample_is_fair : shuffle_rearranges sample /\ indices_in_range sample.
Proof.
  split.
  - intros l. apply Permutation_rev.
  - intros turn. change (String.length chars) with 72%nat.
    change (random_index sample turn) with ((7 * turn + 3) mod 72)%nat.
    apply Nat.mod_upper_bound. discriminate.
Defined.

Lemma generateRandomPassword_keeps_its_promise_witness :
  exists password,
    generateRandomPassword sample 12 = Some password
    /\ In "A"%char (list_ascii_of_string password)
    /\ Z.of_nat (String.length password) = 12.
Proof.
  destruct (generateRandomPassword_keeps_its_promise sample 12 (proj1 sample_is_fair))
    as (password & Hrun & HA & _ & _ & _ & Hlen).
  exists password. repeat split; [exact Hrun | exact HA | exact (Hlen (proj2 sample_is_fair))].
Defined.
End RandomPasswordFacts.

(** ** More evaluations on concrete environments *)

Module MoreScenarioFacts.
Import Scenarios MoreScenarios.

Lemma interception_once_seen_stays_seen_witness :
  let st := NetworkMockPage.run search_was_observed (NetworkMockPage.constructor ascii) in
  NetworkMockPage.wasUrlPatternIntercepted ascii_dec (list_ascii_of_string "search") st = true
  /\ NetworkMockPage.wasUrlPatternIntercepted ascii_dec (list_ascii_of_string "search")
       (NetworkMockPage.run later_traffic st) = true.
Proof.
  cbn zeta.
  assert (H : NetworkMockPage.wasUrlPatternIntercepted ascii_dec (list_ascii_of_string "search")
                (NetworkMockPage.run search_was_observed (NetworkMockPage.constructor ascii))
              = true) by (vm_compute; reflexivity).
  exact (conj H (NetworkMockRunFacts.interception_once_seen_stays_seen
                   ascii ascii_dec _ _ later_traffic H)).
Defined.

Lemma getTestData_hides_file_errors_witness :
  getTestData broken_fixture_file "search" []
  = (Throw (testData_not_found "search"),
     [Ev (FsReadFile testDataPath) (Resolved text_broken)]).
Proof.
  apply (getTestData_hides_file_errors broken_fixture_file "search" []).
  - intros text Hread. vm_compute in Hread. injection Hread as <-.
    vm_compute. reflexivity.
  - vm_compute. reflexivity.
Defined.

Lemma getTestData_own_key_witness :
  fst (getTestData fixture_files "search" []) = Ok (VObj [("location", VStr "Amsterdam")])
  /\ fst (getTestData fixture_with_null_entry "search" [])
     = Throw (testData_not_found "search").
Proof.
  split.
  - rewrite (getTestData_own_key fixture_files "search" []
               [("search", VObj [("location", VStr "Amsterdam")])]
               [Ev (FsReadFile testDataPath) (Resolved text_test_data)]
               (VObj [("location", VStr "Amsterdam")]));
      [reflexivity | vm_compute; reflexivity | vm_compute; reflexivity].
  - rewrite (getTestData_own_key fixture_with_null_entry "search" []
               [("search", VNull)]
               [Ev (FsReadFile testDataPath) (Resolved text_null_entry)]
               VNull);
      [reflexivity | vm_compute; reflexivity | vm_compute; reflexivity].
Defined.

Lemma getCredentials_through_users_witness :
  fst (getCredentials credentials_without_users "testUser" [])
  = Throw (credentials_not_found "testUser")
  /\ fst (getCredentials credentials_without_users "toString" [])
     = Throw (credentials_not_found "toString")
  /\ fst (getCredentials fixture_files "testUser" [])
     = Ok (VObj [("email", VStr "e"); ("password", VStr "p")]).
Proof.
  assert (Hempty : loadTestData credentials_without_users credentialsPath []
                   = (Ok (VObj []),
                      [Ev (FsReadFile credentialsPath) (Resolved text_empty_object)]))
    by (vm_compute; reflexivity).
  assert (Hshipped : loadTestData fixture_files credentialsPath []
                     = (Ok (VObj [("users",
                                   VObj [("testUser",
                                          VObj [("email", VStr "e");
                                                ("password", VStr "p")])])]),
                        [Ev (FsReadFile credentialsPath) (Resolved text_credentials)]))
    by (vm_compute; reflexivity).
  split; [|split].
  - rewrite (proj1 (getCredentials_through_users credentials_without_users
                      "testUser" [] _ _ Hempty) eq_refl).
    reflexivity.
  - rewrite (proj1 (getCredentials_through_users credentials_without_users
                      "toString" [] _ _ Hempty) eq_refl).
    reflexivity.
  - rewrite (proj2 (getCredentials_through_users fixture_files "testUser" [] _ _ Hshipped)
               _ _ eq_refl eq_refl eq_refl).
    reflexivity.
Defined.

Lemma isStateFileValid_never_raises_witness :
  exists n text state,
    isStateFileValid state_file_one_cookie storageStatePath [] = (Ok (VBool true), n)
    /\ In (Ev (FsReadFile storageStatePath) (Resolved text)) n
    /\ JSON_parse state_file_one_cookie text = Some state.
Proof.
  destruct (isStateFileValid_never_raises state_file_one_cookie storageStatePath [])
    as (answer & n & Hrun & _ & _ & Hsource).
  assert (Hanswer : answer = VBool true).
  { vm_compute in Hrun. now injection Hrun as <- _. }
  subst answer. destruct (Hsource eq_refl) as (text & state & Hin & Hparse & _).
  exists n, text, state. exact (conj Hrun (conj Hin Hparse)).
Defined.

Lemma state_file_checks_agree_witness :
  exists answer,
    fst (isStateFileValid stored_cookie_still_good storageStatePath []) = Ok answer
    /\ truthy stored_cookie_still_good answer
       = existsb is_add_cookies
           (snd (login_with_stored_cookies stored_cookie_still_good
                   [Ev PageUrl (Resolved "https://login.funda.nl/account/login")])).
Proof.
  apply (state_file_checks_agree stored_cookie_still_good []
           [Ev PageUrl (Resolved "https://login.funda.nl/account/login")]).
  - vm_compute. reflexivity.
  - intros u. vm_compute. reflexivity.
Defined.

Lemma isLoggedIn_true_has_evidence_witness :
  exists n,
    isLoggedIn account_text_ambiguous [] = (Ok true, n)
    /\ existsb address_evidence n || existsb account_evidence n = true.
Proof.
  pose proof (isLoggedIn_true_has_evidence account_text_ambiguous []) as H.
  destruct (isLoggedIn account_text_ambiguous []) as [r n] eqn:Hrun.
  assert (Hr : r = Ok true) by (vm_compute in Hrun; now injection Hrun as <- _).
  subst r. exists n. exact (conj eq_refl (H eq_refl)).
Defined.

Lemma isLoggedIn_trusts_the_address_witness :
  isLoggedIn already_logged_in []
  = (Ok true,
     [ Ev PageUrl (Resolved "https://www.funda.nl/koop");
       Ev (WaitForTimeout 1000) (Resolved tt);
       Ev PageUrl (Resolved "https://www.funda.nl/koop") ]).
Proof.
  apply (isLoggedIn_trusts_the_address already_logged_in []
           "https://www.funda.nl/koop" "https://www.funda.nl/koop" tt);
    vm_compute; reflexivity.
Defined.

Lemma acceptCookiesIfVisible_never_raises_witness :
  exists n,
    acceptCookiesIfVisible cookie_banner_shown [] = (Ok tt, n)
    /\ existsb is_click n = true
    /\ existsb accept_button_seen n = true.
Proof.
  destruct (acceptCookiesIfVisible_never_raises cookie_banner_shown [])
    as (n & Hrun & _ & _ & Hseen).
  assert (Hclick : existsb is_click n = true).
  { vm_compute in Hrun. injection Hrun as <-. vm_compute. reflexivity. }
  exists n. exact (conj Hrun (conj Hclick (Hseen Hclick))).
Defined.

Lemma handlePossibleCaptcha_reloads_only_when_denied_witness :
  exists r n,
    handlePossibleCaptcha access_denied_until_reload new_LoginPage no_options [] = (r, n)
    /\ existsb is_reload n = true
    /\ existsb access_denied_seen n = true.
Proof.
  pose proof (handlePossibleCaptcha_reloads_only_when_denied
                access_denied_until_reload new_LoginPage no_options []) as H.
  destruct (handlePossibleCaptcha access_denied_until_reload new_LoginPage no_options [])
    as [r n] eqn:Hrun.
  assert (Hreload : existsb is_reload n = true).
  { vm_compute in Hrun. injection Hrun as _ <-. vm_compute. reflexivity. }
  exists r, n. exact (conj eq_refl (conj Hreload (proj1 H Hreload))).
Defined.

Lemma handlePossibleCaptcha_ends_on_return_path_witness :
  exists n url,
    handlePossibleCaptcha nothing_on_disk new_LoginPage to_registration_page []
    = (Ok tt, n)
    /\ ((ends_with n [Ev PageUrl (Resolved url)]
         /\ str_includes url "account/aanmelden" = true)
        \/ ends_with n
             [ Ev PageUrl (Resolved url);
               Ev (PageGoto "https://login.funda.nl/account/aanmelden") (Resolved tt);
               Ev (WaitForTimeout 1000) (Resolved tt) ]).
Proof.
  pose proof (handlePossibleCaptcha_ends_on_return_path
                nothing_on_disk new_LoginPage to_registration_page []) as H.
  destruct (handlePossibleCaptcha nothing_on_disk new_LoginPage to_registration_page [])
    as [r n] eqn:Hrun.
  assert (Hr : r = Ok tt) by (vm_compute in Hrun; now injection Hrun as <- _).
  subst r. destruct (H eq_refl) as [url Hend].
  exists n, url. exact (conj eq_refl Hend).
Defined.

Lemma navigateToRegistration_ends_on_login_page_witness :
  exists n url,
    navigateToRegistration nothing_on_disk new_LoginPage [] = (Ok tt, n)
    /\ ((ends_with n [Ev PageUrl (Resolved url)]
         /\ str_includes url "account/login" = true)
        \/ ends_with n
             [ Ev PageUrl (Resolved url);
               Ev (PageGoto "https://login.funda.nl/account/login") (Resolved tt);
               Ev (WaitForTimeout 1000) (Resolved tt) ]).
Proof.
  pose proof (navigateToRegistration_ends_on_login_page nothing_on_disk []) as H.
  destruct (navigateToRegistration nothing_on_disk new_LoginPage []) as [r n] eqn:Hrun.
  assert (Hr : r = Ok tt) by (vm_compute in Hrun; now injection Hrun as <- _).
  subst r. destruct (H eq_refl) as [url Hend].
  exists n, url. exact (conj eq_refl Hend).
Defined.

Lemma await_captcha_solved_wraps_errors_witness :
  exists n ms,
    await_captcha_solved sleep_fails [] = (Throw "Failed to handle CAPTCHA: boom", n)
    /\ ends_with n [Ev (WaitForTimeout ms) (Rejected "boom")]
    /\ (ms = checkInterval \/ ms = 2000).
Proof.
  pose proof (await_captcha_solved_wraps_errors sleep_fails []) as H.
  destruct (await_captcha_solved sleep_fails []) as [r n] eqn:Hrun.
  assert (Hr : r = Throw "Failed to handle CAPTCHA: boom")
    by (vm_compute in Hrun; now injection Hrun as <- _).
  assert (Hpolls : polls n = 0).
  { vm_compute in Hrun. injection Hrun as _ <-. reflexivity. }
  subst r.
  destruct (H _ eq_refl) as [[_ Hceiling] | (ms & cause & Hend & Hms & Hmessage)].
  - rewrite Hpolls in Hceiling. discriminate Hceiling.
  - injection Hmessage as <-. exists n, ms. exact (conj eq_refl (conj Hend Hms)).
Defined.

Lemma headless_run_never_polls_witness :
  exists r n,
    handlePossibleCaptcha headless_checkbox_challenge new_LoginPage no_options [] = (r, n)
    /\ polls n = 0
    /\ r = Throw "CAPTCHA detected in headless mode. Test cannot proceed automatically.".
Proof.
  pose proof (headless_run_never_polls headless_checkbox_challenge new_LoginPage
                no_options [] eq_refl) as H.
  destruct (handlePossibleCaptcha headless_checkbox_challenge new_LoginPage no_options [])
    as [r n] eqn:Hrun.
  destruct H as [Hpolls Hfatal].
  assert (Hseen : existsb checkbox_challenge_detected n = true).
  { vm_compute in Hrun. injection Hrun as _ <-. vm_compute. reflexivity. }
  exists r, n. exact (conj eq_refl (conj Hpolls (proj1 (Hfatal Hseen)))).
Defined.

Lemma LoginPage_login_submits_only_filled_witness :
  let n := snd (LoginPage_login first_run_login_succeeds new_LoginPage
                  (VStr "e") (VStr "p") []) in
  existsb is_submit n = true
  /\ In (Ev (Fill loginForm_emailInput (VStr "e")) (Resolved tt)) n
  /\ In (Ev (Fill loginForm_passwordInput (VStr "p")) (Resolved tt)) n.
Proof.
  cbn zeta.
  assert (Hsubmit : existsb is_submit
                      (snd (LoginPage_login first_run_login_succeeds new_LoginPage
                              (VStr "e") (VStr "p") [])) = true)
    by (vm_compute; reflexivity).
  exact (conj Hsubmit
           (LoginPage_login_submits_only_filled first_run_login_succeeds new_LoginPage
              (VStr "e") (VStr "p") [] Hsubmit)).
Defined.

Lemma ensureLoggedIn_true_only_after_check_witness :
  exists n,
    ensureLoggedIn stored_cookie_still_good [] = (Ok true, n)
    /\ contains_true_check stored_cookie_still_good [] n.
Proof.
  pose proof (ensureLoggedIn_true_only_after_check stored_cookie_still_good []) as H.
  destruct (ensureLoggedIn stored_cookie_still_good []) as [r n] eqn:Hrun.
  assert (Hr : r = Ok true) by (vm_compute in Hrun; now injection Hrun as <- _).
  subst r. exists n. exact (conj eq_refl (H eq_refl)).
Defined.

Lemma login_true_only_after_check_witness :
  exists n,
    login first_run_login_succeeds test_user [] = (Ok true, n)
    /\ contains_true_check first_run_login_succeeds [] n.
Proof.
  destruct (login_true_only_after_check first_run_login_succeeds test_user []) as [_ H].
  destruct (login first_run_login_succeeds test_user []) as [r n] eqn:Hrun.
  assert (Hr : r = Ok true) by (vm_compute in Hrun; now injection Hrun as <- _).
  subst r. exists n. exact (conj eq_refl (H eq_refl)).
Defined.

Lemma login_raises_only_from_first_navigation_witness :
  navigateToLogin site_unreachable new_LoginPage []
  = (Throw "net::ERR_NAME_NOT_RESOLVED",
     [Ev (PageGoto "https://login.funda.nl/account/login")
         (Rejected "net::ERR_NAME_NOT_RESOLVED")]).
Proof.
  apply (login_raises_only_from_first_navigation site_unreachable
           [("email", VStr "e"); ("password", VStr "p")] []).
  vm_compute. reflexivity.
Defined.
End MoreScenarioFacts.
